(** * Anaplan Actions Lookup: a shallow embedding of [app.py]

    The development follows the source file top to bottom: the Basic-Auth
    encoder, the credential slot kept in Streamlit's session state, the
    endpoint fetcher with its response normalisation, the four-category
    aggregator and the [main] script with its display loop.

    Conventions.
    - A Python [str] is a Rocq [string] holding the UTF-8 bytes of the text;
      [bytes] is [list byte].  So [s.encode("utf-8")] exposes the bytes of
      the string and [b.decode("utf-8")], used only on base64 output (pure
      ASCII), reads them back.
    - [time.time()] readings are rationals: every double is one, and the
      difference of two clock readings of the same binade is exact.
    - The HTTP client ([requests]) and the data-frame library ([pandas]) are
      outside the repository; they enter as Section variables. *)

From Stdlib Require Import List String Ascii Strings.Byte ZArith NArith QArith Bool Lia.
Import ListNotations.
Local Open Scope string_scope.
Set Warnings "-register-all".

(** ** Decoded JSON values, as [response.json()] hands them to the program

    [JDict] lists the entries of the decoded [dict] in insertion order (the
    keys of a decoded body are distinct); [JInt] and [JFloat] are Python's
    [int] and [float]. *)

Inductive json : Type :=
| JNull
| JBool (b : bool)
| JInt (z : Z)
| JFloat (q : Q)
| JStr (s : string)
| JList (items : list json)
| JDict (entries : list (string * json)).

(** [isinstance(v, list)] and [isinstance(v, dict)] *)
Definition is_list (v : json) : bool :=
  match v with JList _ => true | _ => false end.

Definition is_dict (v : json) : bool :=
  match v with JDict _ => true | _ => false end.

(** [d.get(key, default)] on the entries of a dict, in insertion order. *)
Fixpoint dict_get (entries : list (string * json)) (key : string) (default : json) : json :=
  match entries with
  | [] => default
  | (k, v) :: rest => if String.eqb k key then v else dict_get rest key default
  end.

(** ** Exceptions and the error monad *)

Inductive exn : Type :=
| ConnectionError                 (* [requests.get] could not complete *)
| HTTPError (status : Z)          (* [response.raise_for_status()] *)
| JSONDecodeError                 (* [response.json()] on a non-JSON body *)
| AttributeError.                 (* [.get] on something that is not a dict *)

Definition result (A : Type) : Type := (exn + A)%type.

Definition ok {A} (a : A) : result A := inr a.
Definition raise {A} (e : exn) : result A := inl e.

Definition rbind {A B} (r : result A) (k : A -> result B) : result B :=
  match r with
  | inl e => inl e
  | inr a => k a
  end.

Notation "x <-! r ;; k" := (rbind r (fun x => k))
  (at level 61, r at next level, right associativity).

Fixpoint mapM {A B} (f : A -> result B) (l : list A) : result (list B) :=
  match l with
  | [] => ok []
  | a :: rest =>
      b <-! f a ;;
      bs <-! mapM f rest ;;
      ok (b :: bs)
  end.

(** ** Constants *)

Definition BASE_URL : string := "https://api.anaplan.com/1/3".
Definition CREDENTIAL_EXPIRY_SECONDS : Q := 600.

(** ** Auth: [base64.b64encode] and [get_basic_auth_header] *)

Definition encode_utf8 (s : string) : list byte := list_byte_of_string s.
Definition decode_utf8 (bs : list byte) : string := string_of_list_byte bs.

Definition b64_alphabet : list byte :=
  list_byte_of_string
    "ABCDEFGHIJKLMNOPQRSTUVWXYZabcdefghijklmnopqrstuvwxyz0123456789+/".

Definition b64_pad : byte := x3d.

Definition b64_digit (n : N) : byte := nth (N.to_nat n) b64_alphabet b64_pad.

(** Standard base64 (RFC 4648 section 4): three bytes give four digits, a
    final group of one or two bytes is padded with [=]. *)
Fixpoint b64encode (bs : list byte) : list byte :=
  match bs with
  | [] => []
  | [a] =>
      let a := Byte.to_N a in
      [b64_digit (a / 4); b64_digit (a mod 4 * 16); b64_pad; b64_pad]
  | [a; b] =>
      let a := Byte.to_N a in
      let b := Byte.to_N b in
      [b64_digit (a / 4); b64_digit (a mod 4 * 16 + b / 16);
       b64_digit (b mod 16 * 4); b64_pad]
  | a :: b :: c :: rest =>
      let a := Byte.to_N a in
      let b := Byte.to_N b in
      let c := Byte.to_N c in
      b64_digit (a / 4) :: b64_digit (a mod 4 * 16 + b / 16)
        :: b64_digit (b mod 16 * 4 + c / 64) :: b64_digit (c mod 64)
        :: b64encode rest
  end%N.

(** The inverse direction, [base64.b64decode], used to state that the
    encoding loses nothing. *)
Fixpoint index_of (x : byte) (l : list byte) (i : N) : option N :=
  match l with
  | [] => None
  | y :: rest => if Byte.eqb x y then Some i else index_of x rest (N.succ i)
  end.

Definition b64_value (c : byte) : option N := index_of c b64_alphabet 0.

Definition byte_of_N (n : N) : byte :=
  match Byte.of_N (n mod 256) with
  | Some b => b
  | None => x00
  end.

Definition is_nil {A} (l : list A) : bool :=
  match l with [] => true | _ => false end.

Fixpoint b64decode (cs : list byte) : option (list byte) :=
  match cs with
  | [] => Some []
  | c1 :: c2 :: c3 :: c4 :: rest =>
      match b64_value c1, b64_value c2 with
      | Some s1, Some s2 =>
          let b1 := byte_of_N (s1 * 4 + s2 / 16) in
          if Byte.eqb c3 b64_pad && Byte.eqb c4 b64_pad && is_nil rest
          then Some [b1]
          else
            match b64_value c3 with
            | Some s3 =>
                let b2 := byte_of_N (s2 mod 16 * 16 + s3 / 4) in
                if Byte.eqb c4 b64_pad && is_nil rest
                then Some [b1; b2]
                else
                  match b64_value c4, b64decode rest with
                  | Some s4, Some bs =>
                      Some (b1 :: b2 :: byte_of_N (s3 mod 4 * 64 + s4) :: bs)
                  | _, _ => None
                  end
            | None => None
            end
      | _, _ => None
      end
  | _ => None
  end%N.

Definition get_basic_auth_header (username password : string) : string :=
  let credentials := username ++ ":" ++ password in
  let encoded := decode_utf8 (b64encode (encode_utf8 credentials)) in
  "Basic " ++ encoded.

(** ** HTTP transport *)

Record request := {
  url : string;
  headers : list (string * string);
  verify : bool
}.

(** [json_body] is what [response.json()] returns, [None] when the body is
    not JSON. *)
Record response := {
  status_code : Z;
  json_body : option json
}.

(** [Response.raise_for_status]: client errors 4xx and server errors 5xx. *)
Definition raise_for_status (r : response) : result unit :=
  if ((400 <=? status_code r) && (status_code r <? 600))%Z
  then raise (HTTPError (status_code r))
  else ok tt.

Definition response_json (r : response) : result json :=
  match json_body r with
  | Some data => ok data
  | None => raise JSONDecodeError
  end.

(** The shape normalisation at the end of [fetch_items]. *)
Fixpoint first_list_value (entries : list (string * json)) : list json :=
  match entries with
  | [] => []
  | (_, value) :: rest =>
      match value with
      | JList items => items
      | _ => first_list_value rest
      end
  end.

Definition normalize (data : json) : list json :=
  match data with
  | JDict entries => first_list_value entries
  | JList items => items
  | _ => []
  end.

(** ** Session state

    Streamlit's [st.session_state] with the five keys the script uses.  The
    outer [option] is the presence of the key, the inner one (where there is
    one) is Python's [None]. *)

Record credential := {
  email : string;
  password : string;
  timestamp : Q
}.

(** The dict [get_all_action_types] builds: category name to raw items, in
    insertion order. *)
Definition action_collection : Type := list (string * list json).

Record session_state := {
  ss_credentials : option credential;
  ss_auth_header : option (option string);
  ss_action_data : option (option action_collection);
  ss_workspace_id : option string;
  ss_model_id : option string
}.

Definition empty_session : session_state :=
  {| ss_credentials := None; ss_auth_header := None; ss_action_data := None;
     ss_workspace_id := None; ss_model_id := None |}.

Definition set_credentials (c : option credential) (ss : session_state) :=
  {| ss_credentials := c; ss_auth_header := ss_auth_header ss;
     ss_action_data := ss_action_data ss;
     ss_workspace_id := ss_workspace_id ss; ss_model_id := ss_model_id ss |}.

Definition set_auth_header (h : option (option string)) (ss : session_state) :=
  {| ss_credentials := ss_credentials ss; ss_auth_header := h;
     ss_action_data := ss_action_data ss;
     ss_workspace_id := ss_workspace_id ss; ss_model_id := ss_model_id ss |}.

Definition set_action_data (d : option (option action_collection)) (ss : session_state) :=
  {| ss_credentials := ss_credentials ss; ss_auth_header := ss_auth_header ss;
     ss_action_data := d;
     ss_workspace_id := ss_workspace_id ss; ss_model_id := ss_model_id ss |}.

Definition set_workspace_id (v : option string) (ss : session_state) :=
  {| ss_credentials := ss_credentials ss; ss_auth_header := ss_auth_header ss;
     ss_action_data := ss_action_data ss;
     ss_workspace_id := v; ss_model_id := ss_model_id ss |}.

Definition set_model_id (v : option string) (ss : session_state) :=
  {| ss_credentials := ss_credentials ss; ss_auth_header := ss_auth_header ss;
     ss_action_data := ss_action_data ss;
     ss_workspace_id := ss_workspace_id ss; ss_model_id := v |}.

(** ** Credential handling *)

Definition Qltb (x y : Q) : bool := negb (Qle_bool y x).

(** [now] is the value [time.time()] returns inside the call. *)
Definition save_credentials (now : Q) (email password : string)
    (ss : session_state) : session_state :=
  set_credentials
    (Some {| email := email; password := password; timestamp := now |}) ss.

(** [st.session_state.get("credentials")] is [None] or the three-key dict,
    which is truthy. *)
Definition get_credentials (now : Q) (ss : session_state)
    : option string * option string :=
  match ss_credentials ss with
  | Some creds =>
      if Qltb (now - timestamp creds) CREDENTIAL_EXPIRY_SECONDS
      then (Some (email creds), Some (password creds))
      else (None, None)
  | None => (None, None)
  end.

(** ** What the script shows

    The calls that put the program's data on the page, in the order they
    are made.  Page configuration, the title, the spinner and the buttons
    themselves carry no data and are not logged. *)

Record export_row := {
  Name : json;
  ID : json;
  Type_ : string
}.

Inductive ui_event : Type :=
| UiSubheader (text : string)
| UiTextInput (label value : string)        (* [st.text_input(label, value=...)] *)
| UiSuccess (text : string)
| UiError (text : string)
| UiConnectionError (e : exn)               (* [st.error(f"Connection Error: {str(e)}")] *)
| UiWarning (text : string)
| UiDivider
| UiTable (rows : list (json * json))       (* [st.table(df)], columns Name and ID *)
| UiNoItems (category : string)             (* [st.info(f"No {category.lower()} found.")] *)
| UiDownload (rows : list export_row).      (* the combined CSV download button *)

(** ** The script monad: session state and display log, with exceptions.
    A raised exception keeps the mutations made before it. *)

Record world := {
  session : session_state;
  shown : list ui_event
}.

Definition M (A : Type) : Type := world -> result A * world.

Definition ret {A} (a : A) : M A := fun w => (ok a, w).

Definition bind {A B} (m : M A) (k : A -> M B) : M B :=
  fun w =>
    match m w with
    | (inl e, w') => (inl e, w')
    | (inr a, w') => k a w'
    end.

Notation "x <- m ;; k" := (bind m (fun x => k))
  (at level 61, m at next level, right associativity).
Notation "' pat <- m ;; k" := (bind m (fun 'pat => k))
  (at level 61, pat pattern, m at next level, right associativity).
Notation "m ;;; k" := (bind m (fun _ => k))
  (at level 61, right associativity).

Definition get_session : M session_state := fun w => (ok (session w), w).

Definition modify (f : session_state -> session_state) : M unit :=
  fun w => (ok tt, {| session := f (session w); shown := shown w |}).

Definition emit (e : ui_event) : M unit :=
  fun w => (ok tt, {| session := session w; shown := shown w ++ [e] |}).

Definition lift {A} (r : result A) : M A := fun w => (r, w).

(** [try: body except Exception as e: handler(e)] *)
Definition try_except {A} (body : M A) (handler : exn -> M A) : M A :=
  fun w =>
    match body w with
    | (inl e, w') => handler e w'
    | (inr a, w') => (inr a, w')
    end.

Definition when (b : bool) (m : M unit) : M unit := if b then m else ret tt.

(** Truthiness of a [str] and of a [list]. *)
Definition str_truthy (s : string) : bool :=
  match s with EmptyString => false | _ => true end.

Definition list_truthy {A} (l : list A) : bool := negb (is_nil l).

(** [x or ""] for an optional string. *)
Definition or_empty (x : option string) : string :=
  match x with
  | Some s => if str_truthy s then s else ""
  | None => ""
  end.

(** One run of the script: what the widgets return and what the clock reads
    in [get_credentials] and in [save_credentials]. *)
Record widgets := {
  email_input : string;
  password_input : string;
  save_clicked : bool;
  workspace_input : string;
  model_input : string;
  fetch_clicked : bool;
  now_form : Q;
  now_save : Q
}.

Section App.

(** [requests.get(url, headers=..., verify=...)]: the remote end, as a
    function of the request.  [inl] is a request that raised. *)
Variable net : request -> result response.

(** [pd.DataFrame(rows).to_dict(orient="records")] for rows with the columns
    Name and ID, each row given as its two cells. *)
Variable frame_records : list (json * json) -> list (json * json).

(** ** Fetch *)

Definition fetch_items (auth_header workspace_id model_id item_type : string)
    : result (list json) :=
  let url := BASE_URL ++ "/workspaces/" ++ workspace_id ++ "/models/"
               ++ model_id ++ "/" ++ item_type in
  let headers := [("Authorization", auth_header)] in
  response <-! net {| url := url; headers := headers; verify := false |} ;;
  _ <-! raise_for_status response ;;
  data <-! response_json response ;;
  ok (normalize data).

(** The dict display evaluates its four values top to bottom; the first one
    that raises ends the evaluation. *)
Definition get_all_action_types (auth_header workspace_id model_id : string)
    : result action_collection :=
  processes <-! fetch_items auth_header workspace_id model_id "processes" ;;
  imports <-! fetch_items auth_header workspace_id model_id "imports" ;;
  exports <-! fetch_items auth_header workspace_id model_id "exports" ;;
  actions <-! fetch_items auth_header workspace_id model_id "actions" ;;
  ok [("Processes", processes); ("Imports", imports);
      ("Exports", exports); ("Other Actions", actions)].

(** ** The Streamlit script *)

Variable w : widgets.

Definition credential_form : M (string * string) :=
  ss <- get_session ;;
  let '(stored_email, stored_password) := get_credentials (now_form w) ss in
  emit (UiSubheader "🔐 Anaplan Credentials") ;;;
  emit (UiTextInput "Email" (or_empty stored_email)) ;;;
  emit (UiTextInput "Password" (or_empty stored_password)) ;;;
  let email := email_input w in
  let password := password_input w in
  when (save_clicked w)
    (modify (save_credentials (now_save w) email password) ;;;
     emit (UiSuccess "✅ Credentials saved for 10 minutes.")) ;;;
  ret (email, password).

(** [if key not in st.session_state: st.session_state.key = default] *)
Definition init_session (ss : session_state) : session_state :=
  let ss := match ss_auth_header ss with
            | None => set_auth_header (Some None) ss
            | Some _ => ss
            end in
  let ss := match ss_action_data ss with
            | None => set_action_data (Some None) ss
            | Some _ => ss
            end in
  let ss := match ss_workspace_id ss with
            | None => set_workspace_id (Some "") ss
            | Some _ => ss
            end in
  match ss_model_id ss with
  | None => set_model_id (Some "") ss
  | Some _ => ss
  end.

(** Reading an attribute of the session state that is not there raises. *)
Definition read_attr {A} (field : session_state -> option A) : M A :=
  ss <- get_session ;;
  match field ss with
  | Some v => ret v
  | None => lift (raise AttributeError)
  end.

(** [{"Name": i.get("name", ""), "ID": i.get("id", "")}] *)
Definition name_id_cells (i : json) : result (json * json) :=
  match i with
  | JDict entries =>
      ok (dict_get entries "name" (JStr ""), dict_get entries "id" (JStr ""))
  | _ => raise AttributeError
  end.

Definition tag_row (category : string) (cells : json * json) : export_row :=
  {| Name := fst cells; ID := snd cells; Type_ := category |}.

(** The body of [for category, items in st.session_state.action_data.items()],
    threading [combined_data]. *)
Fixpoint display_categories (data : action_collection)
    (combined_data : list export_row) : M (list export_row) :=
  match data with
  | [] => ret combined_data
  | (category, items) :: rest =>
      emit (UiSubheader ("📋 " ++ category)) ;;;
      combined_data <-
        (if list_truthy items
         then
           rows <- lift (mapM name_id_cells items) ;;
           emit (UiTable rows) ;;;
           ret (combined_data ++ map (tag_row category) (frame_records rows))%list
         else
           emit (UiNoItems category) ;;;
           ret combined_data) ;;
      display_categories rest combined_data
  end.

(** The display part of [main]; returns [combined_data] (empty when nothing
    is displayed). *)
Definition display_actions : M (list export_row) :=
  action_data <- read_attr ss_action_data ;;
  match action_data with
  | Some data =>
      if list_truthy data
      then
        emit UiDivider ;;;
        combined_data <- display_categories data [] ;;
        when (list_truthy combined_data) (emit (UiDownload combined_data)) ;;;
        ret combined_data
      else ret []
  | None => ret []
  end.

(** The [Fetch Actions] branch. *)
Definition fetch_actions (email password workspace_id model_id : string) : M unit :=
  if negb (str_truthy email) || negb (str_truthy password)
  then emit (UiError "Please enter and save your credentials first.")
  else if negb (str_truthy workspace_id) || negb (str_truthy model_id)
  then emit (UiError "Please enter Workspace ID and Model ID.")
  else
    try_except
      (let auth_header := get_basic_auth_header email password in
       modify (set_auth_header (Some (Some auth_header))) ;;;
       modify (set_workspace_id (Some workspace_id)) ;;;
       modify (set_model_id (Some model_id)) ;;;
       action_data <- lift (get_all_action_types auth_header workspace_id model_id) ;;
       modify (set_action_data (Some (Some action_data))) ;;;
       if negb (existsb (fun kv => list_truthy (snd kv)) action_data)
       then emit (UiWarning "No actions found in the model.")
       else emit (UiSuccess "✅ Actions loaded successfully!"))
      (fun e => emit (UiConnectionError e)).

Definition main : M unit :=
  modify init_session ;;;
  '(email, password) <- credential_form ;;
  default_workspace <- read_attr ss_workspace_id ;;
  emit (UiTextInput "Workspace ID" default_workspace) ;;;
  default_model <- read_attr ss_model_id ;;
  emit (UiTextInput "Model ID" default_model) ;;;
  let workspace_id := workspace_input w in
  let model_id := model_input w in
  when (fetch_clicked w) (fetch_actions email password workspace_id model_id) ;;;
  _ <- display_actions ;;
  ret tt.

End App.

(** ** Vocabulary of the statements *)

(** The 64 digit values, and the check that a value survives the trip
    through its digit and differs from the padding. *)
Definition sextets : list N := map N.of_nat (seq 0 64).

Definition digit_ok (n : N) : bool :=
  (match b64_value (b64_digit n) with
   | Some m => N.eqb m n
   | None => false
   end && negb (Byte.eqb (b64_digit n) b64_pad))%N.

(** The normalisation contract in the words of the design: for a mapping the
    first value, in the given order, that is a sequence, or nothing when
    there is none; a sequence as it is; nothing for any other shape. *)
Definition no_list_value (entries : list (string * json)) : Prop :=
  Forall (fun kv => is_list (snd kv) = false) entries.

Inductive normal_form : json -> list json -> Prop :=
| nf_first_sequence before key items after :
    no_list_value before ->
    normal_form (JDict (before ++ (key, JList items) :: after)) items
| nf_no_sequence entries :
    no_list_value entries ->
    normal_form (JDict entries) []
| nf_sequence items :
    normal_form (JList items) items
| nf_other data :
    is_dict data = false -> is_list data = false ->
    normal_form data [].

(** The fixed categories with their resource names. *)
Definition categories : list (string * string) :=
  [("Processes", "processes"); ("Imports", "imports");
   ("Exports", "exports"); ("Other Actions", "actions")].

(** A raw record's field, the empty string when the record lacks it. *)
Definition field_or_empty (key : string) (item : json) : json :=
  match item with
  | JDict entries =>
      match find (fun kv => String.eqb (fst kv) key) entries with
      | Some (_, v) => v
      | None => JStr ""
      end
  | _ => JStr ""
  end.

Definition action_item (category : string) (item : json) : export_row :=
  {| Name := field_or_empty "name" item;
     ID := field_or_empty "id" item;
     Type_ := category |}.

Definition is_text (v : json) : bool :=
  match v with JStr _ => true | _ => false end.

(** A raw record whose name and id, where present, are strings. *)
Definition text_record (item : json) : bool :=
  is_dict item && is_text (field_or_empty "name" item)
    && is_text (field_or_empty "id" item).

Definition text_cells (cells : json * json) : bool :=
  is_text (fst cells) && is_text (snd cells).

(** A stored token is tied to the stored Credential when it is present only
    together with a Credential it encodes. *)
Definition token_tied_to_credential (ss : session_state) : Prop :=
  forall token, ss_auth_header ss = Some (Some token) ->
    exists c, ss_credentials ss = Some c
      /\ token = get_basic_auth_header (email c) (password c).

Definition forget_auth_header (ss : session_state) : session_state :=
  set_auth_header None ss.

(** The request [fetch_items] sends for one resource. *)
Definition category_request (auth_header workspace_id model_id item_type : string)
    : request :=
  {| url := BASE_URL ++ "/workspaces/" ++ workspace_id ++ "/models/"
              ++ model_id ++ "/" ++ item_type;
     headers := [("Authorization", auth_header)];
     verify := false |}.

(** A body of the documented shape: a list, or an object with at least one
    list-valued field. *)
Definition well_shaped (data : json) : bool :=
  match data with
  | JList _ => true
  | JDict entries => existsb (fun kv => is_list (snd kv)) entries
  | _ => false
  end.

(** ** Sample remote ends *)

Definition sample_record (name id : string) : json :=
  JDict [("name", JStr name); ("id", JStr id)].

(** Answers every request with status 200 and the given body. *)
Definition net_always (body : json) : request -> result response :=
  fun _ => ok {| status_code := 200; json_body := Some body |}.

(** The remote end of the end-to-end example: one process, no import, one
    export, no other action. *)
Definition sample_net (r : request) : result response :=
  if String.eqb (url r) "https://api.anaplan.com/1/3/workspaces/W1/models/M1/processes"
  then ok {| status_code := 200;
             json_body := Some (JDict [("meta", JDict []);
                                       ("processes", JList [sample_record "P1" "p1"])]) |}
  else if String.eqb (url r) "https://api.anaplan.com/1/3/workspaces/W1/models/M1/exports"
  then ok {| status_code := 200;
             json_body := Some (JList [sample_record "E1" "e1"]) |}
  else ok {| status_code := 200; json_body := Some (JList []) |}.

(** The same remote end with the third category answering 404. *)
Definition failing_net (r : request) : result response :=
  if String.eqb (url r) "https://api.anaplan.com/1/3/workspaces/W1/models/M1/exports"
  then ok {| status_code := 404; json_body := None |}
  else sample_net r.

(** A run in which the operator typed everything and pressed Fetch Actions
    without having saved the credentials. *)
Definition fetch_run : widgets :=
  {| email_input := "a"; password_input := "b"; save_clicked := false;
     workspace_input := "W1"; model_input := "M1"; fetch_clicked := true;
     now_form := 100; now_save := 100 |}.

Definition fresh_world : world := {| session := empty_session; shown := [] |}.

(** The session once [init_session] and the credential form have run. *)
Definition session_after_form (w : widgets) (ss : session_state) : session_state :=
  let ss := init_session ss in
  if save_clicked w
  then save_credentials (now_save w) (email_input w) (password_input w) ss
  else ss.

(** A key read through the initialised session: [None] when it was absent. *)
Definition stored_or_none {A} (v : option (option A)) : option A :=
  match v with
  | Some x => x
  | None => None
  end.

(** An entry of the collection is what [fetch_items] returned for the
    resource of its category. *)
Definition fetched (net : request -> result response) (auth ws m : string)
    (category : string * string) (entry : string * list json) : Prop :=
  fst entry = fst category
  /\ fetch_items net auth ws m (snd category) = ok (snd entry).

(** The two cells the display loop extracts from a raw record. *)
Definition cells_of (item : json) : json * json :=
  (field_or_empty "name" item, field_or_empty "id" item).

(** [flatten] of the design: the categories in the order of the collection,
    each category's items in their order, tagged with the category. *)
Definition flatten (data : action_collection) : list export_row :=
  List.concat (map (fun kv => map (action_item (fst kv)) (snd kv)) data).

(** The data-frame library hands text cells back as they went in. *)
Definition keeps_text (frame_records : list (json * json) -> list (json * json)) : Prop :=
  forall rows, forallb text_cells rows = true -> frame_records rows = rows.

(** A session as a successful fetch of the end-to-end example leaves it,
    with one export that has no name. *)
Definition sample_collection : action_collection :=
  [("Processes", [sample_record "P1" "p1"]);
   ("Imports", []);
   ("Exports", [sample_record "E1" "e1"; JDict [("id", JStr "e2")]]);
   ("Other Actions", [])].

Definition sample_world : world :=
  {| session := set_action_data (Some (Some sample_collection)) (init_session empty_session);
     shown := [] |}.

(** What [main] does after the credential form and the two identifier
    inputs: the fetch branch, then the display. *)
Definition fetch_and_display (net : request -> result response)
    (frame_records : list (json * json) -> list (json * json)) (w : widgets) : M unit :=
  when (fetch_clicked w)
    (fetch_actions net (email_input w) (password_input w)
       (workspace_input w) (model_input w)) ;;;
  _ <- display_actions frame_records ;;
  ret tt.

(** Two worlds that differ at most in the stored token, and two
    computations that cannot tell such worlds apart. *)
Definition same_but_token (w1 w2 : world) : Prop :=
  shown w1 = shown w2
  /\ forget_auth_header (session w1) = forget_auth_header (session w2).

Definition agree {A} (m1 m2 : M A) : Prop :=
  forall w1 w2, same_but_token w1 w2 ->
    fst (m1 w1) = fst (m2 w2) /\ same_but_token (snd (m1 w1)) (snd (m2 w2)).

(** The world with the stored token replaced. *)
Definition with_auth_header (h : option (option string)) (wld : world) : world :=
  {| session := set_auth_header h (session wld); shown := shown wld |}.

(** An HTTP status [raise_for_status] rejects. *)
Definition error_status (status : Z) : Prop := (400 <= status < 600)%Z.

(** The collection four successful fetches with the given bodies produce. *)
Definition collection_of (body : string -> json) : action_collection :=
  map (fun c => (fst c, normalize (body (snd c)))) categories.

(** A remote end that answers the resource [t] with status 200 and [body t],
    told apart by the end of the URL. *)
Definition net_of_bodies (body : string -> json) (r : request) : result response :=
  let answer t := ok {| status_code := 200; json_body := Some (body t) |} in
  if String.eqb (url r) (url (category_request "" "W1" "M1" "processes")) then answer "processes"%string
  else if String.eqb (url r) (url (category_request "" "W1" "M1" "imports")) then answer "imports"%string
  else if String.eqb (url r) (url (category_request "" "W1" "M1" "exports")) then answer "exports"%string
  else answer "actions"%string.

(** Bodies of four different shapes. *)
Definition odd_bodies (t : string) : json :=
  if String.eqb t "processes" then JDict [("items", JList [sample_record "P1" "p1"])]
  else if String.eqb t "imports" then JNull
  else if String.eqb t "exports" then JStr "none"
  else JDict [("meta", JDict [])].

(** The four keys [main] initialises are present. *)
Definition initialised (ss : session_state) : Prop :=
  ss_auth_header ss <> None /\ ss_action_data ss <> None
  /\ ss_workspace_id ss <> None /\ ss_model_id ss <> None.

(** All four inputs of a fetch are filled in. *)
Definition inputs_filled (w : widgets) : bool :=
  str_truthy (email_input w) && str_truthy (password_input w)
    && str_truthy (workspace_input w) && str_truthy (model_input w).

(** What a fetch attempt with the given outcome writes into the session. *)
Definition session_after_attempt (w : widgets) (outcome : result action_collection)
    (ss : session_state) : session_state :=
  let ss :=
    set_model_id (Some (model_input w))
      (set_workspace_id (Some (workspace_input w))
         (set_auth_header
            (Some (Some (get_basic_auth_header (email_input w) (password_input w))))
            ss)) in
  match outcome with
  | inr d => set_action_data (Some (Some d)) ss
  | inl _ => ss
  end.

(** A run that presses Fetch Actions with the identifiers left empty. *)
Definition no_ids_run : widgets :=
  {| email_input := "a"; password_input := "b"; save_clicked := false;
     workspace_input := ""; model_input := ""; fetch_clicked := true;
     now_form := 100; now_save := 100 |}.

(** A run that presses Fetch Actions with nothing typed at all. *)
Definition empty_run : widgets :=
  {| email_input := ""; password_input := ""; save_clicked := false;
     workspace_input := ""; model_input := ""; fetch_clicked := true;
     now_form := 100; now_save := 100 |}.

(** A run that only saves the typed credentials at time 250. *)
Definition save_run : widgets :=
  {| email_input := "ann@example.com"; password_input := "pw"; save_clicked := true;
     workspace_input := ""; model_input := ""; fetch_clicked := false;
     now_form := 250; now_save := 250 |}.

(** A remote end whose every resource is a list holding one string. *)
Definition strings_net : request -> result response :=
  net_always (JList [JStr "process-1"]).

(** The download button among the things shown. *)
Definition is_download (ev : ui_event) : bool :=
  match ev with UiDownload _ => true | _ => false end.

(** A collection of raw records whose names and ids are text. *)
Definition text_collection (data : action_collection) : Prop :=
  Forall (fun kv => forallb text_record (snd kv) = true) data.

(** A string without the separator [:]. *)
Fixpoint colon_free (s : string) : bool :=
  match s with
  | EmptyString => true
  | String c rest => negb (Ascii.eqb c ":"%char) && colon_free rest
  end.

(** A rerun in which no button is pressed. *)
Definition idle_run (w : widgets) : Prop :=
  save_clicked w = false /\ fetch_clicked w = false.

Definition rerun : widgets :=
  {| email_input := "a"; password_input := "b"; save_clicked := false;
     workspace_input := "W1"; model_input := "M1"; fetch_clicked := false;
     now_form := 5000; now_save := 5000 |}.


(** * Properties *)

(** ** Base64 *)

Section Base64.

Local Open Scope N_scope.

Lemma sextets_complete (n : N) : n < 64 -> In n sextets.
Proof.
  intros Hn. unfold sextets.
  rewrite <- (N2Nat.id n). apply in_map. apply in_seq. lia.
Qed.

Lemma digits_all_ok : forallb digit_ok sextets = true.
Proof. vm_compute. reflexivity. Qed.

Lemma digit_ok_below (n : N) : n < 64 -> digit_ok n = true.
Proof.
  intros Hn. pose proof digits_all_ok as H.
  rewrite forallb_forall in H. apply H. now apply sextets_complete.
Qed.

Lemma b64_value_digit (n : N) : n < 64 -> b64_value (b64_digit n) = Some n.
Proof.
  intros Hn. pose proof (digit_ok_below n Hn) as H. unfold digit_ok in H.
  apply andb_true_iff in H. destruct H as [H _].
  destruct (b64_value (b64_digit n)) as [m|]; [|discriminate].
  apply N.eqb_eq in H. now subst.
Qed.

Lemma b64_digit_not_pad (n : N) : n < 64 -> Byte.eqb (b64_digit n) b64_pad = false.
Proof.
  intros Hn. pose proof (digit_ok_below n Hn) as H. unfold digit_ok in H.
  apply andb_true_iff in H. destruct H as [_ H].
  now apply negb_true_iff in H.
Qed.

Lemma byte_of_to_N (b : byte) : byte_of_N (Byte.to_N b) = b.
Proof.
  unfold byte_of_N. pose proof (Byte.to_N_bounded b).
  rewrite N.mod_small by lia. now rewrite Byte.of_to_N.
Qed.

Lemma to_N_lt (b : byte) : Byte.to_N b < 256.
Proof. pose proof (Byte.to_N_bounded b). lia. Qed.

Ltac euclid := Z.to_euclidean_division_equations; lia.

(** The sextets of a group are below 64, and regrouping them gives the
    bytes back. *)
Lemma sextet_bounds (a b c : N) :
  a < 256 -> b < 256 -> c < 256 ->
  a / 4 < 64 /\ a mod 4 * 16 + b / 16 < 64 /\ b mod 16 * 4 + c / 64 < 64
  /\ c mod 64 < 64 /\ a mod 4 * 16 < 64 /\ b mod 16 * 4 < 64.
Proof. intros. repeat split; zify; euclid. Qed.

Lemma regroup_1 (a b : N) :
  a < 256 -> b < 256 -> a / 4 * 4 + (a mod 4 * 16 + b / 16) / 16 = a.
Proof. intros. zify; euclid. Qed.

Lemma regroup_2 (a b c : N) :
  a < 256 -> b < 256 -> c < 256 ->
  (a mod 4 * 16 + b / 16) mod 16 * 16 + (b mod 16 * 4 + c / 64) / 4 = b.
Proof. intros. zify; euclid. Qed.

Lemma regroup_3 (b c : N) :
  b < 256 -> c < 256 -> (b mod 16 * 4 + c / 64) mod 4 * 64 + c mod 64 = c.
Proof. intros. zify; euclid. Qed.

Lemma list_ind3 {A} (P : list A -> Prop) :
  P [] -> (forall a, P [a]) -> (forall a b, P [a; b]) ->
  (forall a b c l, P l -> P (a :: b :: c :: l)) ->
  forall l, P l.
Proof.
  intros H0 H1 H2 H3.
  assert (H : forall l, P l /\ (forall a, P (a :: l)) /\ (forall a b, P (a :: b :: l))).
  { induction l as [|x l [IH0 [IH1 IH2]]].
    - auto.
    - repeat split; auto. }
  intros l. apply H.
Qed.

Lemma b64decode_encode (bs : list byte) : b64decode (b64encode bs) = Some bs.
Proof.
  induction bs as [|a|a b|a b c rest IH] using list_ind3.
  - reflexivity.
  - pose proof (to_N_lt a) as Ha.
    destruct (sextet_bounds (Byte.to_N a) 0 0 Ha) as (H1 & H2 & _); try lia.
    cbn [b64encode b64decode].
    rewrite (b64_value_digit _ H1).
    replace (Byte.to_N a mod 4 * 16) with (Byte.to_N a mod 4 * 16 + 0 / 16) by (cbn; lia).
    rewrite (b64_value_digit _ H2).
    cbn [Byte.eqb andb is_nil]. change (Byte.eqb b64_pad b64_pad) with true. cbn [andb].
    rewrite (regroup_1 _ 0 Ha) by lia. now rewrite byte_of_to_N.
  - pose proof (to_N_lt a) as Ha. pose proof (to_N_lt b) as Hb.
    destruct (sextet_bounds (Byte.to_N a) (Byte.to_N b) 0 Ha Hb) as (H1 & H2 & H3 & _); try lia.
    cbn [b64encode b64decode].
    rewrite (b64_value_digit _ H1), (b64_value_digit _ H2).
    replace (Byte.to_N b mod 16 * 4) with (Byte.to_N b mod 16 * 4 + 0 / 64) by (cbn; lia).
    rewrite (b64_digit_not_pad _ H3), (b64_value_digit _ H3).
    change (Byte.eqb b64_pad b64_pad) with true. cbn [andb is_nil].
    rewrite (regroup_1 _ _ Ha Hb), (regroup_2 _ _ 0 Ha Hb) by lia.
    now rewrite !byte_of_to_N.
  - pose proof (to_N_lt a) as Ha. pose proof (to_N_lt b) as Hb.
    pose proof (to_N_lt c) as Hc.
    destruct (sextet_bounds _ _ _ Ha Hb Hc) as (H1 & H2 & H3 & H4 & _).
    cbn [b64encode b64decode].
    rewrite (b64_value_digit _ H1), (b64_value_digit _ H2).
    rewrite (b64_digit_not_pad _ H3), (b64_value_digit _ H3).
    rewrite (b64_digit_not_pad _ H4), (b64_value_digit _ H4).
    cbn [andb]. rewrite IH.
    rewrite (regroup_1 _ _ Ha Hb), (regroup_2 _ _ _ Ha Hb Hc), (regroup_3 _ _ Hb Hc).
    now rewrite !byte_of_to_N.
Qed.

End Base64.

(** ** Auth encoder *)

Lemma length_append (s1 s2 : string) :
  String.length (s1 ++ s2) = (String.length s1 + String.length s2)%nat.
Proof. induction s1 as [|c s1 IH]; cbn; [reflexivity | now rewrite IH]. Qed.

Lemma b64_digit_ascii (n : N) : (Byte.to_N (b64_digit n) <? 128)%N = true.
Proof.
  unfold b64_digit.
  assert (H : forallb (fun b => (Byte.to_N b <? 128)%N) b64_alphabet = true)
    by (vm_compute; reflexivity).
  rewrite forallb_forall in H.
  destruct (nth_in_or_default (N.to_nat n) b64_alphabet b64_pad) as [Hin | ->].
  - now apply H.
  - reflexivity.
Qed.

Lemma b64encode_ascii (bs : list byte) :
  forallb (fun b => (Byte.to_N b <? 128)%N) (b64encode bs) = true.
Proof.
  induction bs as [|a|a b|a b c rest IH] using list_ind3;
    cbn [b64encode forallb]; rewrite ?b64_digit_ascii, ?IH; reflexivity.
Qed.

Lemma b64encode_inj (xs ys : list byte) : b64encode xs = b64encode ys -> xs = ys.
Proof.
  intros H. apply (f_equal b64decode) in H.
  rewrite !b64decode_encode in H. now injection H.
Qed.

Lemma encode_utf8_inj (s t : string) : encode_utf8 s = encode_utf8 t -> s = t.
Proof.
  intros H. apply (f_equal decode_utf8) in H. unfold decode_utf8, encode_utf8 in H.
  now rewrite !string_of_list_byte_of_string in H.
Qed.

Lemma decode_utf8_inj (xs ys : list byte) : decode_utf8 xs = decode_utf8 ys -> xs = ys.
Proof.
  intros H. apply (f_equal encode_utf8) in H. unfold decode_utf8, encode_utf8 in H.
  now rewrite !list_byte_of_string_of_list_byte in H.
Qed.

Lemma append_inj_l (p s t : string) : p ++ s = p ++ t -> s = t.
Proof.
  induction p as [|c p IH]; cbn; intros H; [assumption|].
  injection H as H. now apply IH.
Qed.

(** C6: for every identity and secret, [get_basic_auth_header] returns the
    scheme label [Basic ] followed by the base64 text of the identity, one
    separator character [:] and the secret.  The payload is plain ASCII and
    decodes back to exactly those bytes, so the encoding is reversible; the
    function is a pure function of its two arguments, and two calls give the
    same token exactly when they encode the same identity-separator-secret
    text (in particular whenever the inputs are the same). *)
Theorem basic_auth_header_encoding (identity secret : string) :
  let pair := identity ++ ":" ++ secret in
  let payload := b64encode (encode_utf8 pair) in
  get_basic_auth_header identity secret = "Basic " ++ decode_utf8 payload
  /\ String.length pair = (String.length identity + 1 + String.length secret)%nat
  /\ forallb (fun b => (Byte.to_N b <? 128)%N) payload = true
  /\ b64decode (encode_utf8 (decode_utf8 payload)) = Some (encode_utf8 pair)
  /\ (forall identity' secret',
        get_basic_auth_header identity' secret' = get_basic_auth_header identity secret
        <-> identity' ++ ":" ++ secret' = pair).
Proof.
  cbv zeta. repeat split.
  - rewrite !length_append. cbn. lia.
  - apply b64encode_ascii.
  - unfold encode_utf8 at 1, decode_utf8.
    rewrite list_byte_of_string_of_list_byte. apply b64decode_encode.
  - unfold get_basic_auth_header. intros H.
    apply append_inj_l, decode_utf8_inj, b64encode_inj, encode_utf8_inj in H.
    exact H.
  - unfold get_basic_auth_header. intros H. now rewrite H.
Qed.

(** ** Credential vault *)

Lemma Qltb_lt (x y : Q) : Qltb x y = true <-> x < y.
Proof.
  unfold Qltb. rewrite negb_true_iff. split.
  - intros H. apply Qnot_le_lt. intros Hle.
    apply Qle_bool_iff in Hle. congruence.
  - intros H. destruct (Qle_bool y x) eqn:E; [|reflexivity].
    apply Qle_bool_iff in E. now apply Qlt_not_le in H.
Qed.

Lemma Qltb_ge (x y : Q) : Qltb x y = false <-> y <= x.
Proof.
  unfold Qltb. rewrite negb_false_iff. apply Qle_bool_iff.
Qed.

Lemma get_after_save (ss : session_state) (T T' : Q) (e p : string) :
  get_credentials T' (save_credentials T e p ss) =
    if Qltb (T' - T) CREDENTIAL_EXPIRY_SECONDS
    then (Some e, Some p) else (None, None).
Proof. reflexivity. Qed.

(** C2: a credential pair saved at time [T] is returned by a query at time
    [T'] when [T' - T < 600] and is reported absent when [T' - T >= 600].
    The query is a function of the clock reading and the session state
    alone and leaves the state as it is, so the stored pair is still there
    after an expired query and the answer of each call depends only on its
    own clock reading. *)
Theorem credentials_valid_for_600_seconds
    (ss : session_state) (T T' : Q) (e p : string) :
  (T' - T < 600 ->
     get_credentials T' (save_credentials T e p ss) = (Some e, Some p))
  /\ (600 <= T' - T ->
     get_credentials T' (save_credentials T e p ss) = (None, None))
  /\ ss_credentials (save_credentials T e p ss)
     = Some {| email := e; password := p; timestamp := T |}.
Proof.
  rewrite get_after_save. repeat split.
  - intros H. apply Qltb_lt in H. unfold CREDENTIAL_EXPIRY_SECONDS. now rewrite H.
  - intros H. apply Qltb_ge in H. unfold CREDENTIAL_EXPIRY_SECONDS. now rewrite H.
Qed.

Lemma credentials_valid_for_600_seconds_witness :
  get_credentials (6995 # 10) (save_credentials 100 "ann@example.com" "pw" empty_session)
    = (Some "ann@example.com", Some "pw")
  /\ get_credentials 700 (save_credentials 100 "ann@example.com" "pw" empty_session)
    = (None, None).
Proof.
  split.
  - apply (credentials_valid_for_600_seconds empty_session 100 (6995 # 10)).
    reflexivity.
  - apply (credentials_valid_for_600_seconds empty_session 100 700).
    discriminate.
Defined.

(** C8: [save_credentials] has no failing path and whatever the session held
    before (no Credential, a valid one or an expired one) the slot holds
    exactly the new pair stamped with the current clock reading afterwards;
    nothing of an earlier save survives, and the other keys of the session
    are untouched. *)
Theorem save_overwrites_unconditionally
    (ss : session_state) (now : Q) (e p : string) :
  ss_credentials (save_credentials now e p ss)
    = Some {| email := e; password := p; timestamp := now |}
  /\ (forall T0 e0 p0,
        save_credentials now e p (save_credentials T0 e0 p0 ss)
        = save_credentials now e p ss)
  /\ get_credentials now (save_credentials now e p ss) = (Some e, Some p)
  /\ ss_auth_header (save_credentials now e p ss) = ss_auth_header ss
  /\ ss_action_data (save_credentials now e p ss) = ss_action_data ss
  /\ ss_workspace_id (save_credentials now e p ss) = ss_workspace_id ss
  /\ ss_model_id (save_credentials now e p ss) = ss_model_id ss.
Proof.
  repeat split.
  rewrite get_after_save.
  assert (H : now - now < CREDENTIAL_EXPIRY_SECONDS).
  { setoid_replace (now - now) with 0 by ring. reflexivity. }
  apply Qltb_lt in H. now rewrite H.
Qed.

(** ** Endpoint fetcher *)

Local Open Scope list_scope.

Lemma first_list_value_cases (entries : list (string * json)) :
  (exists before key items after,
      entries = before ++ (key, JList items) :: after
      /\ no_list_value before /\ first_list_value entries = items)
  \/ (no_list_value entries /\ first_list_value entries = []).
Proof.
  induction entries as [|[k v] rest IH].
  - right. split; [constructor | reflexivity].
  - destruct (is_list v) eqn:Ev.
    + destruct v; try discriminate. left.
      exists [], k, items, rest. repeat split. constructor.
    + assert (Hstep : first_list_value ((k, v) :: rest) = first_list_value rest)
        by (destruct v; try reflexivity; discriminate).
      rewrite Hstep.
      destruct IH as [(before & key & items & after & -> & Hb & Hf) | [Hn Hf]].
      * left. exists ((k, v) :: before), key, items, after.
        repeat split; [constructor; assumption | assumption].
      * right. split; [constructor; assumption | assumption].
Qed.

Lemma no_list_value_scan (entries : list (string * json)) :
  no_list_value entries -> first_list_value entries = [].
Proof.
  induction 1 as [|[k v] rest Hv _ IH]; [reflexivity|].
  cbn in Hv. destruct v; try discriminate; exact IH.
Qed.

Lemma first_list_value_found before key items after :
  no_list_value before ->
  first_list_value (before ++ (key, JList items) :: after) = items.
Proof.
  induction 1 as [|[k v] rest Hv _ IH]; [reflexivity|].
  cbn in Hv. destruct v; try discriminate; exact IH.
Qed.

Lemma normalize_normal_form (data : json) : normal_form data (normalize data).
Proof.
  destruct data; try (now apply nf_other); [apply nf_sequence|].
  cbn [normalize].
  destruct (first_list_value_cases entries)
    as [(before & key & items & after & -> & Hb & ->) | [Hn ->]].
  - now apply nf_first_sequence.
  - now apply nf_no_sequence.
Qed.

Lemma normal_form_normalize (data : json) (items : list json) :
  normal_form data items -> items = normalize data.
Proof.
  destruct 1 as [before key items after Hb | entries Hn | items | data Hd Hl].
  - cbn [normalize]. symmetry. now apply first_list_value_found.
  - cbn [normalize]. symmetry. now apply no_list_value_scan.
  - reflexivity.
  - destruct data; try reflexivity; discriminate.
Qed.

Lemma fetch_items_ok net auth ws m t resp data :
  net (category_request auth ws m t) = ok resp ->
  raise_for_status resp = ok tt ->
  json_body resp = Some data ->
  fetch_items net auth ws m t = ok (normalize data).
Proof.
  intros Hnet Hst Hbody. unfold fetch_items, category_request in *.
  cbv zeta. rewrite Hnet. cbn [rbind ok]. rewrite Hst. cbn [rbind ok].
  unfold response_json. rewrite Hbody. reflexivity.
Qed.

Lemma ill_shaped_normalize (data : json) :
  well_shaped data = false -> normalize data = [].
Proof.
  destruct data; try reflexivity; [discriminate|].
  cbn [well_shaped normalize]. intros H. apply no_list_value_scan.
  induction entries as [|[k v] rest IH]; [constructor|].
  cbn in H. apply orb_false_iff in H. destruct H as [Hv Hrest].
  constructor; [exact Hv | now apply IH].
Qed.

(** C1: whenever the request for a resource is answered with a non-error
    status and a body that decodes to [data], [fetch_items] returns exactly
    the normal form of [data]: for a mapping the first value, in the given
    order of the entries, that is a sequence, or the empty sequence when no
    value is one; a sequence unchanged; the empty sequence for every other
    shape. *)
Theorem fetch_items_normalizes net auth ws m t resp data :
  net (category_request auth ws m t) = ok resp ->
  raise_for_status resp = ok tt ->
  json_body resp = Some data ->
  forall items,
    fetch_items net auth ws m t = ok items <-> normal_form data items.
Proof.
  intros Hnet Hst Hbody items.
  rewrite (fetch_items_ok _ _ _ _ _ _ _ Hnet Hst Hbody). split.
  - intros H. injection H as <-. apply normalize_normal_form.
  - intros H. now rewrite (normal_form_normalize _ _ H).
Qed.

Lemma fetch_items_normalizes_witness :
  fetch_items
    (net_always (JDict [("items", JList [sample_record "A" "1"]); ("meta", JDict [])]))
    "Basic YTpi" "W1" "M1" "processes"
  = ok [sample_record "A" "1"]
  /\ fetch_items (net_always (JList [sample_record "B" "2"]))
       "Basic YTpi" "W1" "M1" "imports" = ok [sample_record "B" "2"]
  /\ fetch_items (net_always (JDict [("meta", JDict [])]))
       "Basic YTpi" "W1" "M1" "exports" = ok []
  /\ fetch_items (net_always JNull) "Basic YTpi" "W1" "M1" "actions" = ok []
  /\ fetch_items (net_always (JInt 42)) "Basic YTpi" "W1" "M1" "actions" = ok [].
Proof.
  refine (conj _ (conj _ (conj _ (conj _ _)))).
  - eapply fetch_items_normalizes; [reflexivity | reflexivity | reflexivity |].
    apply (nf_first_sequence [] "items"). constructor.
  - eapply fetch_items_normalizes; [reflexivity | reflexivity | reflexivity |].
    apply nf_sequence.
  - eapply fetch_items_normalizes; [reflexivity | reflexivity | reflexivity |].
    apply nf_no_sequence. repeat constructor.
  - eapply fetch_items_normalizes; [reflexivity | reflexivity | reflexivity |].
    now apply nf_other.
  - eapply fetch_items_normalizes; [reflexivity | reflexivity | reflexivity |].
    now apply nf_other.
Defined.

(** C7: the normalisation is total and never raises: for every decoded body
    (mapping, sequence, scalar or null) of a response with a non-error
    status, [fetch_items] returns a sequence and no exception, and a body
    that is not of the documented shape gives the empty sequence. *)
Theorem normalization_never_raises net auth ws m t resp data :
  net (category_request auth ws m t) = ok resp ->
  raise_for_status resp = ok tt ->
  json_body resp = Some data ->
  exists items,
    fetch_items net auth ws m t = ok items
    /\ (forall e, fetch_items net auth ws m t <> raise e)
    /\ (well_shaped data = false -> items = []).
Proof.
  intros Hnet Hst Hbody. exists (normalize data).
  rewrite (fetch_items_ok _ _ _ _ _ _ _ Hnet Hst Hbody).
  repeat split.
  - intros e H. discriminate H.
  - apply ill_shaped_normalize.
Qed.

Lemma normalization_never_raises_witness :
  exists items,
    fetch_items (net_always (JStr "oops")) "Basic YTpi" "W1" "M1" "imports" = ok items
    /\ (forall e, fetch_items (net_always (JStr "oops")) "Basic YTpi" "W1" "M1" "imports"
                  <> raise e)
    /\ (well_shaped (JStr "oops") = false -> items = []).
Proof.
  apply (normalization_never_raises (net_always (JStr "oops"))
           "Basic YTpi" "W1" "M1" "imports" _ _ eq_refl eq_refl eq_refl).
Defined.

(** C10: the scan is shallow.  When the decoded body is a mapping none of
    whose top-level values is a sequence, [fetch_items] returns the empty
    sequence whatever those values contain, so a sequence nested inside a
    sub-mapping is not found. *)
Theorem scan_is_shallow net auth ws m t resp entries :
  net (category_request auth ws m t) = ok resp ->
  raise_for_status resp = ok tt ->
  json_body resp = Some (JDict entries) ->
  no_list_value entries ->
  fetch_items net auth ws m t = ok [].
Proof.
  intros Hnet Hst Hbody Hn.
  rewrite (fetch_items_ok _ _ _ _ _ _ _ Hnet Hst Hbody).
  cbn [normalize]. now rewrite no_list_value_scan.
Qed.

Lemma scan_is_shallow_witness :
  fetch_items
    (net_always (JDict [("meta", JDict [("items", JList [sample_record "A" "1"])])]))
    "Basic YTpi" "W1" "M1" "processes" = ok [].
Proof.
  eapply scan_is_shallow; [reflexivity | reflexivity | reflexivity |].
  repeat constructor.
Defined.

(** ** Aggregator *)

Lemma get_all_action_types_ok_iff net auth ws m (d : action_collection) :
  get_all_action_types net auth ws m = ok d <-> Forall2 (fetched net auth ws m) categories d.
Proof.
  unfold get_all_action_types, categories, fetched. split.
  - destruct (fetch_items net auth ws m "processes") as [e|p] eqn:E1; [discriminate|].
    destruct (fetch_items net auth ws m "imports") as [e|i] eqn:E2; [discriminate|].
    destruct (fetch_items net auth ws m "exports") as [e|x] eqn:E3; [discriminate|].
    destruct (fetch_items net auth ws m "actions") as [e|a] eqn:E4; [discriminate|].
    cbn. intros H. injection H as <-.
    repeat (constructor; [split; [reflexivity | assumption]|]). constructor.
  - intros H.
    repeat match goal with
           | H : Forall2 _ (_ :: _) _ |- _ => inversion H; subst; clear H
           | H : Forall2 _ [] _ |- _ => inversion H; subst; clear H
           | H : _ /\ _ |- _ => destruct H
           end.
    cbn [fst snd] in *.
    repeat match goal with
           | H : fetch_items _ _ _ _ _ = _ |- _ => rewrite H; clear H
           end.
    cbn.
    repeat match goal with
           | x : (string * list json)%type |- _ => destruct x
           end.
    cbn [fst snd] in *. subst. reflexivity.
Qed.

(** C5: every value [get_all_action_types] returns is a mapping whose keys,
    in insertion order, are exactly Processes, Imports, Exports and Other
    Actions, each mapped to the sequence [fetch_items] returned for its
    resource name (processes, imports, exports, actions); no key is
    missing and none is repeated. *)
Theorem action_collection_has_four_categories net auth ws m (d : action_collection) :
  get_all_action_types net auth ws m = ok d ->
  map fst d = ["Processes"; "Imports"; "Exports"; "Other Actions"]%string
  /\ NoDup (map fst d)
  /\ Forall2 (fetched net auth ws m) categories d.
Proof.
  intros H. apply get_all_action_types_ok_iff in H.
  assert (Hkeys : map fst d = map fst categories).
  { clear -H. induction H as [|c kv cs kvs [Hk _] _ IH]; [reflexivity|].
    cbn. now rewrite Hk, IH. }
  repeat split; [exact Hkeys | | exact H].
  rewrite Hkeys. cbn.
  repeat (constructor; [cbn; intuition discriminate|]). constructor.
Qed.

Lemma action_collection_has_four_categories_witness :
  exists d,
    get_all_action_types sample_net "Basic YTpi" "W1" "M1" = ok d
    /\ map fst d = ["Processes"; "Imports"; "Exports"; "Other Actions"]%string
    /\ NoDup (map fst d)
    /\ Forall2 (fetched sample_net "Basic YTpi" "W1" "M1") categories d.
Proof.
  eexists. split; [reflexivity|].
  apply (action_collection_has_four_categories sample_net "Basic YTpi" "W1" "M1").
  reflexivity.
Defined.

(** The first failing fetch ends the call. *)
Lemma get_all_action_types_fails net auth ws m item_type e :
  In item_type (map snd categories) ->
  fetch_items net auth ws m item_type = raise e ->
  exists e' failed,
    get_all_action_types net auth ws m = raise e'
    /\ In failed (map snd categories)
    /\ fetch_items net auth ws m failed = raise e'.
Proof.
  intros Hin Hfail. unfold get_all_action_types.
  destruct (fetch_items net auth ws m "processes") as [e1|p] eqn:E1.
  { exists e1, "processes"%string. unfold raise. cbn. tauto. }
  destruct (fetch_items net auth ws m "imports") as [e2|i] eqn:E2.
  { exists e2, "imports"%string. unfold raise. cbn. tauto. }
  destruct (fetch_items net auth ws m "exports") as [e3|x] eqn:E3.
  { exists e3, "exports"%string. unfold raise. cbn. tauto. }
  destruct (fetch_items net auth ws m "actions") as [e4|a] eqn:E4.
  { exists e4, "actions"%string. unfold raise. cbn. tauto. }
  exfalso. cbn in Hin. unfold raise in Hfail.
  destruct Hin as [<- | [<- | [<- | [<- | []]]]]; congruence.
Qed.

(** ** Display loop and the combined export set *)

Lemma dict_get_field (entries : list (string * json)) (key : string) :
  dict_get entries key (JStr "") = field_or_empty key (JDict entries).
Proof.
  induction entries as [|[k v] rest IH]; [reflexivity|].
  cbn in *. destruct (String.eqb k key); [reflexivity | exact IH].
Qed.

Lemma mapM_cells (items : list json) :
  forallb text_record items = true ->
  mapM name_id_cells items = ok (map cells_of items)
  /\ forallb text_cells (map cells_of items) = true.
Proof.
  induction items as [|item rest IH]; [split; reflexivity|].
  cbn [forallb]. intros H. apply andb_true_iff in H. destruct H as [Hitem Hrest].
  destruct (IH Hrest) as [IHm IHt]. clear IH.
  unfold text_record in Hitem.
  apply andb_true_iff in Hitem. destruct Hitem as [Hitem Hid].
  apply andb_true_iff in Hitem. destruct Hitem as [Hdict Hname].
  destruct item; try discriminate. split.
  - cbn [mapM name_id_cells]. rewrite !dict_get_field. cbn [rbind ok].
    rewrite IHm. reflexivity.
  - cbn [map forallb]. rewrite IHt. unfold text_cells, cells_of. cbn [fst snd].
    now rewrite Hname, Hid.
Qed.

Lemma tag_cells (category : string) (items : list json) :
  map (tag_row category) (map cells_of items) = map (action_item category) items.
Proof. rewrite map_map. reflexivity. Qed.

Lemma display_categories_run fr (data : action_collection) :
  keeps_text fr ->
  Forall (fun kv => forallb text_record (snd kv) = true) data ->
  forall combined_data wld,
  exists events,
    display_categories fr data combined_data wld
    = (ok (combined_data ++ flatten data),
       {| session := session wld; shown := shown wld ++ events |}).
Proof.
  intros Hfr Hdata.
  induction Hdata as [|[category items] rest Hitems _ IH]; intros acc wld.
  - exists []. unfold flatten. cbn. rewrite !app_nil_r. now destruct wld.
  - cbn [snd] in Hitems. destruct (mapM_cells items Hitems) as [Hm Ht].
    cbn [display_categories]. unfold bind at 1. cbn [emit ok].
    destruct items as [|item items'].
    + cbn [list_truthy is_nil negb]. unfold bind at 1. unfold bind at 1.
      cbn [emit ok ret].
      match goal with
      | |- context [display_categories fr rest acc ?w] =>
          destruct (IH acc w) as [events ->]
      end.
      cbn [session shown]. eexists. unfold flatten. cbn [map List.concat fst snd app].
      rewrite <- !app_assoc. reflexivity.
    + cbn [list_truthy is_nil negb]. unfold bind at 1. unfold bind at 1.
      unfold lift at 1. rewrite Hm. cbn [ok]. unfold bind at 1. cbn [emit ok ret].
      rewrite (Hfr _ Ht), tag_cells.
      match goal with
      | |- context [display_categories fr rest ?a ?w] =>
          destruct (IH a w) as [events ->]
      end.
      cbn [session shown]. eexists. unfold flatten. cbn [map List.concat fst snd].
      rewrite <- !app_assoc. reflexivity.
Qed.

Lemma field_missing (key : string) (entries : list (string * json)) :
  (forall v, ~ In (key, v) entries) ->
  field_or_empty key (JDict entries) = JStr "".
Proof.
  intros Hmiss. cbn.
  destruct (find (fun kv => String.eqb (fst kv) key) entries) as [[k v]|] eqn:E;
    [|reflexivity].
  apply find_some in E. destruct E as [Hin Hk]. cbn in Hk.
  apply String.eqb_eq in Hk. subst k. now apply Hmiss in Hin.
Qed.

Lemma field_present (key : string) (before after : list (string * json)) (v : json) :
  (forall v', ~ In (key, v') before) ->
  field_or_empty key (JDict (before ++ (key, v) :: after)) = v.
Proof.
  intros Hmiss. cbn. induction before as [|[k v'] rest IH].
  - cbn. now rewrite String.eqb_refl.
  - cbn. destruct (String.eqb k key) eqn:E.
    + apply String.eqb_eq in E. subst k. exfalso. apply (Hmiss v'). now left.
    + apply IH. intros v0 Hin. apply (Hmiss v0). now right.
Qed.

(** C4: for a collection with the four categories (raw records whose name
    and id, where present, are strings), the display loop builds the combined
    export set by going through Processes, Imports, Exports, Other Actions in
    that order, appending each category's items in their order, each tagged
    with its category as Type; a record's Name and ID are its name and id
    fields, the empty string when the record lacks the field.  The session
    is left as it was and the set, when not empty, is what the download
    button gets. *)
Theorem combined_export_in_fixed_order fr
    (processes imports exports actions : list json) (wld : world) :
  keeps_text fr ->
  ss_action_data (session wld)
    = Some (Some [("Processes", processes); ("Imports", imports);
                  ("Exports", exports); ("Other Actions", actions)]%string) ->
  forallb text_record (processes ++ imports ++ exports ++ actions) = true ->
  let combined :=
    map (action_item "Processes") processes ++ map (action_item "Imports") imports
      ++ map (action_item "Exports") exports
      ++ map (action_item "Other Actions") actions in
  fst (display_actions fr wld) = ok combined
  /\ session (snd (display_actions fr wld)) = session wld
  /\ (combined <> [] -> In (UiDownload combined) (shown (snd (display_actions fr wld))))
  /\ (forall category entries,
        ((forall v, ~ In ("name"%string, v) entries) ->
           Name (action_item category (JDict entries)) = JStr "")
        /\ ((forall v, ~ In ("id"%string, v) entries) ->
           ID (action_item category (JDict entries)) = JStr "")).
Proof.
  intros Hfr Hdata Htext combined.
  rewrite !forallb_app in Htext.
  repeat (apply andb_true_iff in Htext; destruct Htext as [? Htext]).
  assert (Hrun : exists events,
             display_actions fr wld
             = (ok combined, {| session := session wld; shown := shown wld ++ events |})
             /\ (combined <> [] -> In (UiDownload combined) events)).
  { unfold display_actions, read_attr. unfold bind at 1. unfold bind at 1.
    cbn [get_session ok]. rewrite Hdata. cbn [ret ok list_truthy is_nil negb].
    unfold bind at 1. cbn [emit ok]. unfold bind at 1.
    match goal with
    | |- context [display_categories fr ?d [] ?w] =>
        destruct (display_categories_run fr d Hfr) with (combined_data := @nil export_row) (wld := w)
          as [events Hev]
    end.
    { repeat (constructor; [assumption|]). constructor. }
    rewrite Hev. cbn [session shown app].
    replace (flatten _) with combined
      by (unfold flatten, combined; cbn; now rewrite app_nil_r).
    unfold bind at 1. destruct combined as [|row rows] eqn:Ecomb.
    - cbn. eexists. split; [rewrite <- app_assoc; reflexivity | congruence].
    - cbn [list_truthy is_nil negb when emit ok ret session shown].
      eexists. split; [rewrite <- !app_assoc; reflexivity|].
      intros _. apply in_or_app. right. apply in_or_app. right. now left. }
  destruct Hrun as (events & -> & Hdl). cbn [fst snd session shown].
  repeat split.
  - intros Hne. apply in_or_app. right. now apply Hdl.
  - intros Hmiss. cbn [action_item Name]. now apply field_missing.
  - intros Hmiss. cbn [action_item ID]. now apply field_missing.
Qed.

Lemma combined_export_in_fixed_order_witness :
  fst (display_actions (fun rows => rows) sample_world)
  = ok [ {| Name := JStr "P1"; ID := JStr "p1"; Type_ := "Processes" |};
         {| Name := JStr "E1"; ID := JStr "e1"; Type_ := "Exports" |};
         {| Name := JStr ""; ID := JStr "e2"; Type_ := "Exports" |} ].
Proof.
  exact (proj1 (combined_export_in_fixed_order (fun rows => rows)
                  [sample_record "P1" "p1"] []
                  [sample_record "E1" "e1"; JDict [("id"%string, JStr "e2")]] []
                  sample_world (fun rows _ => eq_refl) eq_refl eq_refl)).
Defined.

(** ** The script as a whole *)

Lemma credential_form_run (w : widgets) (wld : world) :
  exists events,
    credential_form w wld
    = (ok (email_input w, password_input w),
       {| session := if save_clicked w
                     then save_credentials (now_save w) (email_input w)
                            (password_input w) (session wld)
                     else session wld;
          shown := shown wld ++ events |}).
Proof.
  unfold credential_form. unfold bind at 1. cbn [get_session ok].
  destruct (get_credentials (now_form w) (session wld)) as [stored_email stored_password].
  unfold bind, emit, when, modify, ret, ok.
  destruct (save_clicked w); cbn [session shown];
    eexists; rewrite <- !app_assoc; reflexivity.
Qed.

Lemma init_session_keys (ss : session_state) :
  ss_auth_header (init_session ss) = Some (stored_or_none (ss_auth_header ss))
  /\ ss_action_data (init_session ss) = Some (stored_or_none (ss_action_data ss))
  /\ (exists v, ss_workspace_id (init_session ss) = Some v)
  /\ (exists v, ss_model_id (init_session ss) = Some v)
  /\ ss_credentials (init_session ss) = ss_credentials ss.
Proof.
  destruct ss as [c [h|] [d|] [ws|] [m|]]; cbn; repeat split; eauto.
Qed.

Lemma session_after_form_keys (w : widgets) (ss : session_state) :
  ss_auth_header (session_after_form w ss) = Some (stored_or_none (ss_auth_header ss))
  /\ ss_action_data (session_after_form w ss) = Some (stored_or_none (ss_action_data ss))
  /\ (exists v, ss_workspace_id (session_after_form w ss) = Some v)
  /\ (exists v, ss_model_id (session_after_form w ss) = Some v).
Proof.
  destruct (init_session_keys ss) as (Hh & Hd & Hw & Hm & _).
  unfold session_after_form. destruct (save_clicked w); cbn; auto.
Qed.

Lemma main_steps net fr (w : widgets) (wld : world) :
  exists events,
    main net fr w wld
    = fetch_and_display net fr w
        {| session := session_after_form w (session wld);
           shown := shown wld ++ events |}.
Proof.
  unfold main. unfold bind at 1. cbn [modify ok].
  unfold bind at 1.
  match goal with
  | |- context [credential_form w ?w1] =>
      destruct (credential_form_run w w1) as [ev1 ->]
  end.
  cbn [session shown ok].
  fold (session_after_form w (session wld)).
  destruct (session_after_form_keys w (session wld)) as (_ & _ & [ws Hws] & [m Hm]).
  unfold read_attr. unfold bind at 1. unfold bind at 1. cbn [get_session ok session].
  rewrite Hws. cbn [ret ok]. unfold bind at 1. cbn [emit ok session shown].
  unfold bind at 1. unfold bind at 1. cbn [get_session ok session].
  rewrite Hm. cbn [ret ok]. unfold bind at 1. cbn [emit ok session shown].
  eexists. unfold fetch_and_display. rewrite <- !app_assoc. reflexivity.
Qed.

Lemma display_categories_frame fr (data : action_collection) :
  forall combined_data wld,
  exists events,
    snd (display_categories fr data combined_data wld)
    = {| session := session wld; shown := shown wld ++ events |}.
Proof.
  induction data as [|[category items] rest IH]; intros acc wld.
  - exists []. cbn. rewrite app_nil_r. now destruct wld.
  - cbn [display_categories]. unfold bind at 1. cbn [emit ok].
    unfold bind at 1. destruct (list_truthy items).
    + unfold bind at 1. unfold lift at 1.
      destruct (mapM name_id_cells items) as [e|rows].
      * cbn [snd session shown]. eexists. reflexivity.
      * unfold bind at 1. cbn [emit ok ret].
        match goal with
        | |- context [display_categories fr rest ?a ?w] =>
            destruct (IH a w) as [events ->]
        end.
        cbn [session shown]. eexists. rewrite <- !app_assoc. reflexivity.
    + unfold bind at 1. cbn [emit ok ret].
      match goal with
      | |- context [display_categories fr rest ?a ?w] =>
          destruct (IH a w) as [events ->]
      end.
      cbn [session shown]. eexists. rewrite <- !app_assoc. reflexivity.
Qed.

Lemma display_actions_frame fr (wld : world) :
  exists events,
    snd (display_actions fr wld)
    = {| session := session wld; shown := shown wld ++ events |}.
Proof.
  unfold display_actions, read_attr. unfold bind at 1. unfold bind at 1.
  cbn [get_session ok].
  destruct (ss_action_data (session wld)) as [[data|]|].
  - cbn [ret ok]. destruct (list_truthy data).
    + unfold bind at 1. cbn [emit ok]. unfold bind at 1.
      match goal with
      | |- context [display_categories fr data ?a ?w] =>
          destruct (display_categories_frame fr data a w) as [events Hev];
          destruct (display_categories fr data a w) as [[e|combined] wld']
      end; cbn [snd] in Hev; subst wld'; cbn [session shown snd].
      * eexists. rewrite <- !app_assoc. reflexivity.
      * unfold bind at 1. destruct (list_truthy combined);
          cbn [when emit ret ok snd session shown];
          eexists; rewrite <- !app_assoc; reflexivity.
    + exists []. cbn. rewrite app_nil_r. now destruct wld.
  - exists []. cbn. rewrite app_nil_r. now destruct wld.
  - exists []. cbn. rewrite app_nil_r. now destruct wld.
Qed.

Lemma fetch_actions_failed net (email password workspace_id model_id : string)
    (e : exn) (wld : world) :
  str_truthy email = true -> str_truthy password = true ->
  str_truthy workspace_id = true -> str_truthy model_id = true ->
  get_all_action_types net (get_basic_auth_header email password) workspace_id model_id
    = raise e ->
  fetch_actions net email password workspace_id model_id wld
  = (ok tt,
     {| session :=
          set_model_id (Some model_id)
            (set_workspace_id (Some workspace_id)
               (set_auth_header (Some (Some (get_basic_auth_header email password)))
                  (session wld)));
        shown := shown wld ++ [UiConnectionError e] |}).
Proof.
  intros He Hp Hw Hm Hfail. unfold fetch_actions.
  rewrite He, Hp, Hw, Hm. cbn [negb orb].
  unfold try_except, bind, modify, lift. cbn [ok session shown].
  rewrite Hfail. reflexivity.
Qed.

Lemma fetch_actions_succeeded net (email password workspace_id model_id : string)
    (d : action_collection) (wld : world) :
  str_truthy email = true -> str_truthy password = true ->
  str_truthy workspace_id = true -> str_truthy model_id = true ->
  get_all_action_types net (get_basic_auth_header email password) workspace_id model_id
    = ok d ->
  exists event,
    fetch_actions net email password workspace_id model_id wld
    = (ok tt,
       {| session :=
            set_action_data (Some (Some d))
              (set_model_id (Some model_id)
                 (set_workspace_id (Some workspace_id)
                    (set_auth_header (Some (Some (get_basic_auth_header email password)))
                       (session wld))));
          shown := shown wld ++ [event] |}).
Proof.
  intros He Hp Hw Hm Hok. unfold fetch_actions.
  rewrite He, Hp, Hw, Hm. cbn [negb orb].
  unfold try_except, bind, modify, lift. cbn [ok session shown].
  rewrite Hok. cbn [ok session shown].
  destruct (negb (existsb _ d)); cbn [emit ok session shown]; eexists; reflexivity.
Qed.

Lemma fetch_and_display_after net fr (w : widgets) (wld wld1 : world) :
  when (fetch_clicked w)
    (fetch_actions net (email_input w) (password_input w)
       (workspace_input w) (model_input w)) wld = (ok tt, wld1) ->
  exists events,
    snd (fetch_and_display net fr w wld)
    = {| session := session wld1; shown := shown wld1 ++ events |}.
Proof.
  intros Hstep. unfold fetch_and_display. unfold bind at 1. rewrite Hstep.
  unfold bind at 1.
  destruct (display_actions_frame fr wld1) as [events Hev].
  destruct (display_actions fr wld1) as [[e|combined] wld2];
    cbn [snd] in Hev; subst wld2; cbn [ret ok snd]; eauto.
Qed.

(** C3: when the operator presses Fetch Actions with all four inputs filled
    in and the fetch of any one of the four resources raises, then
    [get_all_action_types] returns no collection at all but raises the
    exception of the first failing fetch, and after the run of the script
    [session_state.action_data] holds what it held before (the collection of
    an earlier successful run, or [None]); the failure is what the script
    shows. *)
Theorem failed_fetch_keeps_previous_collection net fr (w : widgets) (wld : world)
    (item_type : string) (e : exn) :
  fetch_clicked w = true ->
  str_truthy (email_input w) = true -> str_truthy (password_input w) = true ->
  str_truthy (workspace_input w) = true -> str_truthy (model_input w) = true ->
  In item_type (map snd categories) ->
  fetch_items net (get_basic_auth_header (email_input w) (password_input w))
    (workspace_input w) (model_input w) item_type = raise e ->
  exists e' failed,
    get_all_action_types net (get_basic_auth_header (email_input w) (password_input w))
      (workspace_input w) (model_input w) = raise e'
    /\ In failed (map snd categories)
    /\ fetch_items net (get_basic_auth_header (email_input w) (password_input w))
         (workspace_input w) (model_input w) failed = raise e'
    /\ ss_action_data (session (snd (main net fr w wld)))
       = Some (stored_or_none (ss_action_data (session wld)))
    /\ (forall previous,
          ss_action_data (session wld) = Some (Some previous) ->
          ss_action_data (session (snd (main net fr w wld))) = Some (Some previous))
    /\ In (UiConnectionError e') (shown (snd (main net fr w wld))).
Proof.
  intros Hclick He Hp Hw Hm Hin Hfail.
  destruct (get_all_action_types_fails _ _ _ _ _ _ Hin Hfail)
    as (e' & failed & Hall & Hfin & Hffail).
  exists e', failed. repeat (split; [assumption|]).
  destruct (main_steps net fr w wld) as [ev1 ->].
  match goal with
  | |- context [fetch_and_display net fr w ?w1] =>
      destruct (fetch_and_display_after net fr w w1 _
                  (eq_trans (f_equal (fun b => when b _ w1) Hclick)
                     (fetch_actions_failed net _ _ _ _ e' w1 He Hp Hw Hm Hall)))
        as [ev2 ->]
  end.
  cbn [session shown ss_action_data set_model_id set_workspace_id set_auth_header].
  destruct (session_after_form_keys w (session wld)) as (_ & Hd & _).
  repeat split.
  - exact Hd.
  - intros previous Hprev. rewrite Hd, Hprev. reflexivity.
  - apply in_or_app. left. apply in_or_app. right. now left.
Qed.

Lemma failed_fetch_keeps_previous_collection_witness :
  ss_action_data
    (session (snd (main failing_net (fun rows => rows) fetch_run sample_world)))
  = Some (Some sample_collection).
Proof.
  destruct (failed_fetch_keeps_previous_collection failing_net (fun rows => rows)
              fetch_run sample_world "exports" (HTTPError 404)
              eq_refl eq_refl eq_refl eq_refl eq_refl
              (or_intror (or_intror (or_introl eq_refl))) eq_refl)
    as (e' & failed & _ & _ & _ & _ & Hprev & _).
  exact (Hprev sample_collection eq_refl).
Defined.

(** ** The stored token *)

Section TokenNotRead.

Lemma forget_fields (s1 s2 : session_state) :
  forget_auth_header s1 = forget_auth_header s2 ->
  ss_credentials s1 = ss_credentials s2
  /\ ss_action_data s1 = ss_action_data s2
  /\ ss_workspace_id s1 = ss_workspace_id s2
  /\ ss_model_id s1 = ss_model_id s2.
Proof.
  intros H. destruct s1, s2. cbn in H. injection H as -> -> -> ->. auto.
Qed.

Lemma forget_eq (s1 s2 : session_state) :
  forget_auth_header s1 = forget_auth_header s2 ->
  ss_auth_header s1 = ss_auth_header s2 ->
  s1 = s2.
Proof.
  intros H Hh. destruct s1, s2. cbn in *. injection H as -> -> -> ->. now subst.
Qed.

Lemma agree_ret {A} (a : A) : agree (ret a) (ret a).
Proof. intros w1 w2 H. cbn. auto. Qed.

Lemma agree_bind {A B} (m1 m2 : M A) (k1 k2 : A -> M B) :
  agree m1 m2 -> (forall a, agree (k1 a) (k2 a)) -> agree (bind m1 k1) (bind m2 k2).
Proof.
  intros Hm Hk w1 w2 H. unfold bind.
  destruct (Hm w1 w2 H) as [Hr Hw].
  destruct (m1 w1) as [[e1|a1] w1'], (m2 w2) as [[e2|a2] w2'];
    cbn [fst snd] in *; try discriminate.
  - injection Hr as ->. auto.
  - injection Hr as ->. now apply Hk.
Qed.

Lemma agree_emit (e : ui_event) : agree (emit e) (emit e).
Proof.
  intros w1 w2 [Hs Hf]. unfold emit. cbn. split; [reflexivity|].
  split; cbn; [now rewrite Hs | exact Hf].
Qed.

Lemma agree_lift {A} (r : result A) : agree (lift r) (lift r).
Proof. intros w1 w2 H. cbn. auto. Qed.

Lemma agree_modify (f : session_state -> session_state) :
  (forall s1 s2, forget_auth_header s1 = forget_auth_header s2 ->
                 forget_auth_header (f s1) = forget_auth_header (f s2)) ->
  agree (modify f) (modify f).
Proof.
  intros Hf w1 w2 [Hs Hw]. unfold modify. cbn. split; [reflexivity|].
  split; cbn; [exact Hs | now apply Hf].
Qed.

Lemma agree_when (b : bool) (m1 m2 : M unit) :
  agree m1 m2 -> agree (when b m1) (when b m2).
Proof. intros H. destruct b; [exact H | apply agree_ret]. Qed.

Lemma agree_try_except {A} (b1 b2 : M A) (h1 h2 : exn -> M A) :
  agree b1 b2 -> (forall e, agree (h1 e) (h2 e)) ->
  agree (try_except b1 h1) (try_except b2 h2).
Proof.
  intros Hb Hh w1 w2 H. unfold try_except.
  destruct (Hb w1 w2 H) as [Hr Hw].
  destruct (b1 w1) as [[e1|a1] w1'], (b2 w2) as [[e2|a2] w2'];
    cbn [fst snd] in *; try discriminate.
  - injection Hr as ->. now apply Hh.
  - auto.
Qed.

Lemma agree_get_session {A} (k : session_state -> M A) :
  (forall s1 s2, forget_auth_header s1 = forget_auth_header s2 -> agree (k s1) (k s2)) ->
  agree (bind get_session k) (bind get_session k).
Proof.
  intros Hk w1 w2 H. unfold bind, get_session. cbn [ok].
  apply Hk; [apply H | exact H].
Qed.

Lemma agree_read_attr {A} (field : session_state -> option A) :
  (forall s1 s2, forget_auth_header s1 = forget_auth_header s2 -> field s1 = field s2) ->
  agree (read_attr field) (read_attr field).
Proof.
  intros Hf. unfold read_attr. apply agree_get_session. intros s1 s2 H.
  rewrite (Hf s1 s2 H). destruct (field s2); [apply agree_ret | apply agree_lift].
Qed.

Lemma agree_display_categories fr (data : action_collection) :
  forall combined_data,
    agree (display_categories fr data combined_data)
          (display_categories fr data combined_data).
Proof.
  induction data as [|[category items] rest IH]; intros acc.
  - apply agree_ret.
  - cbn [display_categories]. apply agree_bind; [apply agree_emit|]. intros _.
    apply agree_bind; [|exact IH].
    destruct (list_truthy items).
    + apply agree_bind; [apply agree_lift|]. intros rows.
      apply agree_bind; [apply agree_emit|]. intros _. apply agree_ret.
    + apply agree_bind; [apply agree_emit|]. intros _. apply agree_ret.
Qed.

Lemma agree_display_actions fr : agree (display_actions fr) (display_actions fr).
Proof.
  unfold display_actions. apply agree_bind.
  - apply agree_read_attr. intros s1 s2 H. apply (forget_fields _ _ H).
  - intros [data|]; [|apply agree_ret].
    destruct (list_truthy data); [|apply agree_ret].
    apply agree_bind; [apply agree_emit|]. intros _.
    apply agree_bind; [apply agree_display_categories|]. intros combined.
    apply agree_bind; [apply agree_when, agree_emit|]. intros _. apply agree_ret.
Qed.

Lemma agree_credential_form (w : widgets) :
  agree (credential_form w) (credential_form w).
Proof.
  unfold credential_form. apply agree_get_session. intros s1 s2 H.
  assert (Hg : get_credentials (now_form w) s1 = get_credentials (now_form w) s2).
  { unfold get_credentials. destruct (forget_fields _ _ H) as [-> _]. reflexivity. }
  rewrite Hg. destruct (get_credentials (now_form w) s2) as [stored_email stored_password].
  repeat (apply agree_bind; [apply agree_emit|]; intros _).
  apply agree_bind; [|intros _; apply agree_ret].
  apply agree_when. apply agree_bind; [|intros _; apply agree_emit].
  apply agree_modify. intros t1 t2 Ht.
  destruct t1, t2. cbn in *. injection Ht as -> -> -> ->. reflexivity.
Qed.

Lemma agree_fetch_actions net (email password workspace_id model_id : string) :
  agree (fetch_actions net email password workspace_id model_id)
        (fetch_actions net email password workspace_id model_id).
Proof.
  unfold fetch_actions.
  destruct (negb (str_truthy email) || negb (str_truthy password)); [apply agree_emit|].
  destruct (negb (str_truthy workspace_id) || negb (str_truthy model_id));
    [apply agree_emit|].
  apply agree_try_except; [|intros e; apply agree_emit].
  cbv zeta.
  apply agree_bind;
    [apply agree_modify; intros t1 t2 Ht; destruct t1, t2; cbn in *;
     injection Ht as -> -> -> ->; reflexivity|]. intros _.
  apply agree_bind;
    [apply agree_modify; intros t1 t2 Ht; destruct t1, t2; cbn in *;
     injection Ht as -> -> -> ->; reflexivity|]. intros _.
  apply agree_bind;
    [apply agree_modify; intros t1 t2 Ht; destruct t1, t2; cbn in *;
     injection Ht as -> -> -> ->; reflexivity|]. intros _.
  apply agree_bind; [apply agree_lift|]. intros action_data.
  apply agree_bind;
    [apply agree_modify; intros t1 t2 Ht; destruct t1, t2; cbn in *;
     injection Ht as -> -> -> ->; reflexivity|]. intros _.
  destruct (negb (existsb _ action_data)); apply agree_emit.
Qed.

Lemma agree_main net fr (w : widgets) : agree (main net fr w) (main net fr w).
Proof.
  unfold main.
  apply agree_bind.
  { apply agree_modify. intros [c1 h1 d1 w1 m1] [c2 h2 d2 w2 m2] H.
    cbn in H. injection H as -> -> -> ->.
    destruct h1, h2, d2, w2, m2; reflexivity. }
  intros _. apply agree_bind; [apply agree_credential_form|]. intros [email password].
  apply agree_bind;
    [apply agree_read_attr; intros s1 s2 H; apply (forget_fields _ _ H)|].
  intros default_workspace. apply agree_bind; [apply agree_emit|]. intros _.
  apply agree_bind;
    [apply agree_read_attr; intros s1 s2 H; apply (forget_fields _ _ H)|].
  intros default_model. apply agree_bind; [apply agree_emit|]. intros _.
  apply agree_bind; [apply agree_when, agree_fetch_actions|]. intros _.
  apply agree_bind; [apply agree_display_actions|]. intros _. apply agree_ret.
Qed.

End TokenNotRead.

Lemma same_but_token_replaced (h : option (option string)) (wld : world) :
  same_but_token (with_auth_header h wld) wld.
Proof. split; [reflexivity|]. cbn. now destruct (session wld). Qed.

Lemma main_stores_token net fr (w : widgets) (wld : world) :
  fetch_clicked w = true ->
  str_truthy (email_input w) = true -> str_truthy (password_input w) = true ->
  str_truthy (workspace_input w) = true -> str_truthy (model_input w) = true ->
  ss_auth_header (session (snd (main net fr w wld)))
  = Some (Some (get_basic_auth_header (email_input w) (password_input w)))
  /\ (forall d,
        get_all_action_types net (get_basic_auth_header (email_input w) (password_input w))
          (workspace_input w) (model_input w) = ok d ->
        ss_action_data (session (snd (main net fr w wld))) = Some (Some d)).
Proof.
  intros Hclick He Hp Hw Hm.
  destruct (main_steps net fr w wld) as [ev1 ->].
  destruct (get_all_action_types net
              (get_basic_auth_header (email_input w) (password_input w))
              (workspace_input w) (model_input w)) as [e|d] eqn:Hall.
  - match goal with
    | |- context [fetch_and_display net fr w ?w1] =>
        destruct (fetch_and_display_after net fr w w1 _
                    (eq_trans (f_equal (fun b => when b _ w1) Hclick)
                       (fetch_actions_failed net _ _ _ _ e w1 He Hp Hw Hm Hall)))
          as [ev2 ->]
    end.
    split; [reflexivity | discriminate].
  - match goal with
    | |- context [fetch_and_display net fr w ?w1] =>
        destruct (fetch_actions_succeeded net _ _ _ _ d w1 He Hp Hw Hm Hall)
          as [event Hstep];
        destruct (fetch_and_display_after net fr w w1 _
                    (eq_trans (f_equal (fun b => when b _ w1) Hclick) Hstep))
          as [ev2 ->]
    end.
    split; [reflexivity|]. intros d' Hd'. injection Hd' as <-. reflexivity.
Qed.

(** C9, as the code has it: the token is recomputed by
    [get_basic_auth_header] from the email and password currently entered on
    every fetch attempt, and that fresh value is the one sent with the four
    requests; a copy is stored in [session_state.auth_header] on each such
    attempt, whether or not a Credential is stored, but the stored copy is
    never read: replacing it by anything else changes neither the outcome of
    the script, nor what it shows, nor any other key of the session. *)
Theorem token_recomputed_and_never_read net fr (w : widgets) (wld : world)
    (stale : option (option string)) :
  (fst (main net fr w (with_auth_header stale wld)) = fst (main net fr w wld)
   /\ same_but_token (snd (main net fr w (with_auth_header stale wld)))
                     (snd (main net fr w wld)))
  /\ (fetch_clicked w = true ->
      str_truthy (email_input w) = true -> str_truthy (password_input w) = true ->
      str_truthy (workspace_input w) = true -> str_truthy (model_input w) = true ->
      ss_auth_header (session (snd (main net fr w wld)))
      = Some (Some (get_basic_auth_header (email_input w) (password_input w)))
      /\ (forall d,
            get_all_action_types net
              (get_basic_auth_header (email_input w) (password_input w))
              (workspace_input w) (model_input w) = ok d ->
            ss_action_data (session (snd (main net fr w wld))) = Some (Some d))
      /\ main net fr w (with_auth_header stale wld) = main net fr w wld).
Proof.
  pose proof (agree_main net fr w _ _ (same_but_token_replaced stale wld))
    as [Hres Hsame].
  split; [split; assumption|].
  intros Hclick He Hp Hw Hm.
  destruct (main_stores_token net fr w wld Hclick He Hp Hw Hm) as [Htok Hdata].
  destruct (main_stores_token net fr w (with_auth_header stale wld) Hclick He Hp Hw Hm)
    as [Htok' _].
  repeat split; [exact Htok | exact Hdata |].
  destruct Hsame as [Hshown Hforget].
  destruct (main net fr w (with_auth_header stale wld)) as [r1 [s1 u1]].
  destruct (main net fr w wld) as [r2 [s2 u2]].
  cbn [fst snd session shown] in *. subst r2 u2.
  rewrite (forget_eq s1 s2 Hforget) by congruence. reflexivity.
Qed.

Lemma token_recomputed_and_never_read_witness :
  ss_auth_header
    (session (snd (main sample_net (fun rows => rows) fetch_run fresh_world)))
  = Some (Some "Basic YTpi"%string)
  /\ main sample_net (fun rows => rows) fetch_run
       (with_auth_header (Some (Some "Basic c3RhbGU="%string)) fresh_world)
     = main sample_net (fun rows => rows) fetch_run fresh_world.
Proof.
  destruct (proj2 (token_recomputed_and_never_read sample_net (fun rows => rows)
                     fetch_run fresh_world (Some (Some "Basic c3RhbGU="%string)))
              eq_refl eq_refl eq_refl eq_refl eq_refl)
    as (Htok & _ & Hsame).
  split; [exact Htok | exact Hsame].
Defined.

(** C9 as stated fails: after a fetch by an operator who never saved the
    credentials the session holds a token and no Credential at all, so the
    token is cached apart from any Credential. *)
Lemma token_stored_without_credential :
  let ss := session (snd (main sample_net (fun rows => rows) fetch_run fresh_world)) in
  ss_auth_header ss = Some (Some "Basic YTpi"%string)
  /\ ss_credentials ss = None
  /\ ~ token_tied_to_credential ss.
Proof.
  cbv zeta. split; [reflexivity|]. split; [reflexivity|].
  intros Htied. destruct (Htied "Basic YTpi"%string eq_refl) as (c & Hc & _).
  discriminate Hc.
Qed.

(** * Further properties of the code *)

(** ** How [fetch_items] fails *)

Lemma raise_for_status_cases (r : response) :
  (error_status (status_code r) /\ raise_for_status r = raise (HTTPError (status_code r)))
  \/ (~ error_status (status_code r) /\ raise_for_status r = ok tt).
Proof.
  unfold raise_for_status, error_status.
  destruct (400 <=? status_code r)%Z eqn:E1; destruct (status_code r <? 600)%Z eqn:E2;
    cbn [andb];
    try apply Z.leb_le in E1; try apply Z.leb_gt in E1;
    try apply Z.ltb_lt in E2; try apply Z.ltb_ge in E2;
    [left | right | right | right]; split; try reflexivity; lia.
Qed.


Lemma fetch_items_same_answer net1 net2 (auth ws m t : string) :
  net1 (category_request auth ws m t) = net2 (category_request auth ws m t) ->
  fetch_items net1 auth ws m t = fetch_items net2 auth ws m t.
Proof.
  intros H. unfold fetch_items. cbv zeta.
  change {| url := _; headers := _; verify := false |}
    with (category_request auth ws m t).
  now rewrite H.
Qed.

(** [get_all_action_types] looks at the remote end through four requests
    only: GET on the URL of each resource, with the token as the only header
    and certificate verification switched off.  Two remote ends that answer
    those four alike give the same result. *)
Theorem get_all_action_types_four_requests net1 net2 (auth ws m : string) :
  (forall c, In c categories ->
     net1 (category_request auth ws m (snd c)) = net2 (category_request auth ws m (snd c))) ->
  get_all_action_types net1 auth ws m = get_all_action_types net2 auth ws m.
Proof.
  intros H. unfold get_all_action_types.
  rewrite (fetch_items_same_answer net1 net2 auth ws m "processes")
    by (apply (H ("Processes", "processes")%string); cbn; tauto).
  rewrite (fetch_items_same_answer net1 net2 auth ws m "imports")
    by (apply (H ("Imports", "imports")%string); cbn; tauto).
  rewrite (fetch_items_same_answer net1 net2 auth ws m "exports")
    by (apply (H ("Exports", "exports")%string); cbn; tauto).
  rewrite (fetch_items_same_answer net1 net2 auth ws m "actions")
    by (apply (H ("Other Actions", "actions")%string); cbn; tauto).
  reflexivity.
Qed.

Lemma get_all_action_types_four_requests_witness :
  get_all_action_types sample_net "Basic YTpi" "W1" "M1"
  = get_all_action_types
      (fun r => if verify r then raise ConnectionError else sample_net r)
      "Basic YTpi" "W1" "M1".
Proof.
  apply (get_all_action_types_four_requests sample_net
           (fun r => if verify r then raise ConnectionError else sample_net r)).
  intros c Hc. reflexivity.
Defined.

(** The URLs of different resources of one model differ, so the four
    requests of a fetch cycle are four different requests. *)
Theorem category_urls_differ (auth ws m t1 t2 : string) :
  url (category_request auth ws m t1) = url (category_request auth ws m t2) ->
  t1 = t2.
Proof.
  unfold category_request. cbn [url]. intros H.
  repeat apply append_inj_l in H. exact H.
Qed.

Lemma category_urls_differ_witness : "imports"%string = "imports"%string.
Proof.
  apply (category_urls_differ "Basic YTpi" "W1" "M1" "imports" "imports").
  reflexivity.
Defined.

(** The first failing fetch decides: when the resources before one fetch
    succeed and that fetch raises [e], [get_all_action_types] raises [e],
    whatever the later resources would answer. *)
Theorem first_failure_wins net (auth ws m : string)
    (before : list string) (failed : string) (after : list string) (e : exn) :
  map snd categories = before ++ failed :: after ->
  (forall t, In t before -> exists items, fetch_items net auth ws m t = ok items) ->
  fetch_items net auth ws m failed = raise e ->
  get_all_action_types net auth ws m = raise e.
Proof.
  intros Hsplit Hbefore Hfail. unfold get_all_action_types. cbn in Hsplit.
  destruct before as [|b1 [|b2 [|b3 [|b4 [|b5 rest]]]]]; cbn in Hsplit;
    injection Hsplit as <-; intros; subst;
    repeat match goal with
           | |- context [rbind (fetch_items net auth ws m ?t) _] =>
               lazymatch t with
               | failed => fail
               | _ =>
                   let items := fresh "items" in
                   let Heq := fresh "Heq" in
                   destruct (Hbefore t ltac:(cbn; tauto)) as [items Heq];
                   rewrite Heq; cbn [rbind ok]
               end
           end;
    try discriminate;
    rewrite Hfail; reflexivity.
Qed.

Lemma first_failure_wins_witness :
  get_all_action_types failing_net "Basic YTpi" "W1" "M1" = raise (HTTPError 404).
Proof.
  apply (first_failure_wins failing_net "Basic YTpi" "W1" "M1"
           ["processes"; "imports"]%string "exports" ["actions"]%string).
  - reflexivity.
  - intros t [<- | [<- | []]]; eexists; reflexivity.
  - reflexivity.
Defined.

(** When each of the four requests is answered with a status that is no
    error and a body that is JSON, [get_all_action_types] returns a
    collection, whatever the shapes of the four bodies: each category holds
    the normalised body of its resource. *)
Theorem any_shapes_give_a_collection net (auth ws m : string) (body : string -> json) :
  (forall c, In c categories ->
     exists resp,
       net (category_request auth ws m (snd c)) = ok resp
       /\ ~ error_status (status_code resp)
       /\ json_body resp = Some (body (snd c))) ->
  get_all_action_types net auth ws m = ok (collection_of body).
Proof.
  intros H.
  assert (Hf : forall c, In c categories ->
                 fetch_items net auth ws m (snd c) = ok (normalize (body (snd c)))).
  { intros c Hc. destruct (H c Hc) as (resp & Hnet & Hst & Hbody).
    apply (fetch_items_ok _ _ _ _ _ _ _ Hnet); [|exact Hbody].
    destruct (raise_for_status_cases resp) as [[Hs _] | [_ Hok]];
      [contradiction | exact Hok]. }
  pose proof (Hf ("Processes", "processes")%string ltac:(cbn; tauto)) as H1.
  pose proof (Hf ("Imports", "imports")%string ltac:(cbn; tauto)) as H2.
  pose proof (Hf ("Exports", "exports")%string ltac:(cbn; tauto)) as H3.
  pose proof (Hf ("Other Actions", "actions")%string ltac:(cbn; tauto)) as H4.
  cbn [snd] in H1, H2, H3, H4.
  unfold get_all_action_types. rewrite H1, H2, H3, H4. reflexivity.
Qed.

Lemma any_shapes_give_a_collection_witness :
  get_all_action_types (net_of_bodies odd_bodies) "" "W1" "M1"
  = ok [("Processes", [sample_record "P1" "p1"]); ("Imports", []);
        ("Exports", []); ("Other Actions", [])]%string.
Proof.
  apply (any_shapes_give_a_collection (net_of_bodies odd_bodies) "" "W1" "M1" odd_bodies).
  intros c [<- | [<- | [<- | [<- | []]]]]; eexists;
    (split; [reflexivity | split; [unfold error_status; cbn; lia | reflexivity]]).
Defined.

(** ** When [main] fetches *)

Lemma main_steps_uniform fr (w : widgets) (wld : world) :
  exists events, forall net,
    main net fr w wld
    = fetch_and_display net fr w
        {| session := session_after_form w (session wld);
           shown := shown wld ++ events |}.
Proof.
  destruct (credential_form_run w
              {| session := init_session (session wld); shown := shown wld |})
    as [ev1 Hform].
  destruct (session_after_form_keys w (session wld)) as (_ & _ & [ws Hws] & [m Hm]).
  exists (ev1 ++ [UiTextInput "Workspace ID" ws; UiTextInput "Model ID" m]).
  intros net. unfold main. unfold bind at 1. cbn [modify ok].
  unfold bind at 1. rewrite Hform. cbn [session shown ok].
  fold (session_after_form w (session wld)).
  unfold read_attr. unfold bind at 1. unfold bind at 1. cbn [get_session ok session].
  rewrite Hws. cbn [ret ok]. unfold bind at 1. cbn [emit ok session shown].
  unfold bind at 1. unfold bind at 1. cbn [get_session ok session].
  rewrite Hm. cbn [ret ok]. unfold bind at 1. cbn [emit ok session shown].
  unfold fetch_and_display. rewrite <- !app_assoc. reflexivity.
Qed.

(** The remote end is contacted only when Fetch Actions was pressed and the
    email, the password, the workspace id and the model id are all
    non-empty: in every other run the script does the same whatever the
    remote end would answer. *)
Theorem no_request_without_complete_input net1 net2 fr (w : widgets) (wld : world) :
  fetch_clicked w && inputs_filled w = false ->
  main net1 fr w wld = main net2 fr w wld.
Proof.
  intros H. destruct (main_steps_uniform fr w wld) as [events Hsteps].
  rewrite !Hsteps. unfold fetch_and_display. unfold bind at 1. unfold bind at 2.
  replace (when (fetch_clicked w)
             (fetch_actions net1 (email_input w) (password_input w)
                (workspace_input w) (model_input w)))
    with (when (fetch_clicked w)
            (fetch_actions net2 (email_input w) (password_input w)
               (workspace_input w) (model_input w)));
    [reflexivity|].
  unfold inputs_filled in H. destruct (fetch_clicked w); [|reflexivity].
  cbn [when andb] in *. unfold fetch_actions.
  destruct (str_truthy (email_input w)), (str_truthy (password_input w)),
    (str_truthy (workspace_input w)), (str_truthy (model_input w));
    cbn in *; try reflexivity; discriminate.
Qed.

Lemma no_request_without_complete_input_witness :
  main failing_net (fun rows => rows) no_ids_run sample_world
  = main sample_net (fun rows => rows) no_ids_run sample_world.
Proof.
  apply (no_request_without_complete_input failing_net sample_net
           (fun rows => rows) no_ids_run sample_world).
  reflexivity.
Defined.

Lemma fetch_actions_no_credentials net (email password workspace_id model_id : string)
    (wld : world) :
  str_truthy email && str_truthy password = false ->
  fetch_actions net email password workspace_id model_id wld
  = (ok tt,
     {| session := session wld;
        shown := shown wld ++ [UiError "Please enter and save your credentials first."] |}).
Proof.
  intros H. unfold fetch_actions.
  destruct (str_truthy email), (str_truthy password); try discriminate; reflexivity.
Qed.

Lemma fetch_actions_no_ids net (email password workspace_id model_id : string)
    (wld : world) :
  str_truthy email && str_truthy password = true ->
  str_truthy workspace_id && str_truthy model_id = false ->
  fetch_actions net email password workspace_id model_id wld
  = (ok tt,
     {| session := session wld;
        shown := shown wld ++ [UiError "Please enter Workspace ID and Model ID."] |}).
Proof.
  intros Hc H. unfold fetch_actions.
  destruct (str_truthy email), (str_truthy password); try discriminate.
  destruct (str_truthy workspace_id), (str_truthy model_id); try discriminate;
    reflexivity.
Qed.

Lemma inputs_filled_true (w : widgets) :
  inputs_filled w = true ->
  str_truthy (email_input w) = true /\ str_truthy (password_input w) = true
  /\ str_truthy (workspace_input w) = true /\ str_truthy (model_input w) = true.
Proof.
  unfold inputs_filled.
  destruct (str_truthy (email_input w)), (str_truthy (password_input w)),
    (str_truthy (workspace_input w)), (str_truthy (model_input w));
    cbn; intros H; try discriminate; auto.
Qed.

(** The fetch branch never raises; it writes the session exactly when a
    fetch is attempted. *)
Lemma fetch_step_run net (w : widgets) (wld : world) :
  exists events,
    when (fetch_clicked w)
      (fetch_actions net (email_input w) (password_input w)
         (workspace_input w) (model_input w)) wld
    = (ok tt,
       {| session :=
            if fetch_clicked w && inputs_filled w
            then session_after_attempt w
                   (get_all_action_types net
                      (get_basic_auth_header (email_input w) (password_input w))
                      (workspace_input w) (model_input w))
                   (session wld)
            else session wld;
          shown := shown wld ++ events |}).
Proof.
  destruct (fetch_clicked w); cbn [when andb].
  - destruct (inputs_filled w) eqn:Hin.
    + destruct (inputs_filled_true w Hin) as (He & Hp & Hw & Hm).
      destruct (get_all_action_types net
                  (get_basic_auth_header (email_input w) (password_input w))
                  (workspace_input w) (model_input w)) as [e|d] eqn:Hall.
      * rewrite (fetch_actions_failed net _ _ _ _ e wld He Hp Hw Hm Hall).
        eexists. reflexivity.
      * destruct (fetch_actions_succeeded net _ _ _ _ d wld He Hp Hw Hm Hall)
          as [event ->].
        eexists. reflexivity.
    + unfold inputs_filled in Hin.
      destruct (str_truthy (email_input w) && str_truthy (password_input w)) eqn:Hc.
      * rewrite (fetch_actions_no_ids net _ _ _ _ wld Hc).
        -- eexists. reflexivity.
        -- destruct (str_truthy (workspace_input w)), (str_truthy (model_input w));
             cbn in *; try reflexivity; discriminate.
      * rewrite (fetch_actions_no_credentials net _ _ _ _ wld Hc).
        eexists. reflexivity.
  - exists []. unfold ret. rewrite app_nil_r. now destruct wld.
Qed.

(** The session at the end of a run, in full. *)
Lemma main_session net fr (w : widgets) (wld : world) :
  session (snd (main net fr w wld))
  = if fetch_clicked w && inputs_filled w
    then session_after_attempt w
           (get_all_action_types net
              (get_basic_auth_header (email_input w) (password_input w))
              (workspace_input w) (model_input w))
           (session_after_form w (session wld))
    else session_after_form w (session wld).
Proof.
  destruct (main_steps_uniform fr w wld) as [ev1 Hsteps]. rewrite Hsteps.
  match goal with
  | |- context [fetch_and_display net fr w ?w1] =>
      destruct (fetch_step_run net w w1) as [ev2 Hstep];
      destruct (fetch_and_display_after net fr w w1 _ Hstep) as [ev3 ->]
  end.
  reflexivity.
Qed.

(** Pressing Fetch Actions writes the token, the workspace id and the model
    id into the session before the first request goes out, so they are
    stored whether the fetch succeeds or not; the collection is stored only
    when all four fetches succeeded, and then it replaces the earlier one as
    a whole. *)
Theorem session_after_fetch_attempt net fr (w : widgets) (wld : world) :
  fetch_clicked w = true ->
  inputs_filled w = true ->
  let token := get_basic_auth_header (email_input w) (password_input w) in
  let ss' := session (snd (main net fr w wld)) in
  ss_auth_header ss' = Some (Some token)
  /\ ss_workspace_id ss' = Some (workspace_input w)
  /\ ss_model_id ss' = Some (model_input w)
  /\ ss_action_data ss'
     = match get_all_action_types net token (workspace_input w) (model_input w) with
       | inr d => Some (Some d)
       | inl _ => Some (stored_or_none (ss_action_data (session wld)))
       end.
Proof.
  intros Hclick Hin. cbv zeta. rewrite main_session, Hclick, Hin. cbn [andb].
  destruct (session_after_form_keys w (session wld)) as (_ & Hd & _).
  unfold session_after_attempt.
  destruct (get_all_action_types net _ _ _) as [e|d]; cbn; auto.
Qed.

Lemma session_after_fetch_attempt_witness :
  let ss' := session (snd (main failing_net (fun rows => rows) fetch_run sample_world)) in
  ss_auth_header ss' = Some (Some "Basic YTpi"%string)
  /\ ss_workspace_id ss' = Some "W1"%string
  /\ ss_model_id ss' = Some "M1"%string
  /\ ss_action_data ss' = Some (Some sample_collection).
Proof.
  exact (session_after_fetch_attempt failing_net (fun rows => rows) fetch_run
           sample_world eq_refl eq_refl).
Defined.

(** Without a fetch attempt (the button not pressed, or an input left
    empty) the run stores nothing but what the credential form saves: the
    token, the identifiers and the collection stay as they were. *)
Theorem session_without_fetch_attempt net fr (w : widgets) (wld : world) :
  fetch_clicked w && inputs_filled w = false ->
  let ss' := session (snd (main net fr w wld)) in
  ss_auth_header ss' = Some (stored_or_none (ss_auth_header (session wld)))
  /\ ss_action_data ss' = Some (stored_or_none (ss_action_data (session wld)))
  /\ ss_workspace_id ss'
     = Some (match ss_workspace_id (session wld) with Some v => v | None => ""%string end)
  /\ ss_model_id ss'
     = Some (match ss_model_id (session wld) with Some v => v | None => ""%string end).
Proof.
  intros H. cbv zeta. rewrite main_session, H.
  unfold session_after_form.
  destruct (session wld) as [c [h|] [d|] [ws|] [m|]];
    destruct (save_clicked w); cbn; auto.
Qed.

Lemma session_without_fetch_attempt_witness :
  let ss' := session (snd (main failing_net (fun rows => rows) no_ids_run sample_world)) in
  ss_auth_header ss' = Some None
  /\ ss_action_data ss' = Some (Some sample_collection)
  /\ ss_workspace_id ss' = Some ""%string
  /\ ss_model_id ss' = Some ""%string.
Proof.
  exact (session_without_fetch_attempt failing_net (fun rows => rows) no_ids_run
           sample_world eq_refl).
Defined.

(** ** What survives a run *)

(** Only the Save button changes the stored Credential: a run stores the
    typed pair with the clock reading of the save when the button was
    pressed and otherwise leaves the slot as it was.  Fetching, failing and
    displaying never touch it, and an expired Credential is not deleted. *)
Theorem only_save_changes_credentials net fr (w : widgets) (wld : world) :
  ss_credentials (session (snd (main net fr w wld)))
  = if save_clicked w
    then Some {| email := email_input w; password := password_input w;
                 timestamp := now_save w |}
    else ss_credentials (session wld).
Proof.
  rewrite main_session.
  assert (Hform : ss_credentials (session_after_form w (session wld))
                  = if save_clicked w
                    then Some {| email := email_input w; password := password_input w;
                                 timestamp := now_save w |}
                    else ss_credentials (session wld)).
  { unfold session_after_form. destruct (init_session_keys (session wld)) as (_ & _ & _ & _ & Hc).
    destruct (save_clicked w); [reflexivity | exact Hc]. }
  destruct (fetch_clicked w && inputs_filled w); [|exact Hform].
  unfold session_after_attempt.
  destruct (get_all_action_types net _ _ _); cbn; exact Hform.
Qed.

(** After every run, failed or not, the four keys the script initialises
    are present, and initialising again changes nothing. *)
Theorem session_initialised_after_run net fr (w : widgets) (wld : world) :
  initialised (session (snd (main net fr w wld)))
  /\ init_session (session (snd (main net fr w wld))) = session (snd (main net fr w wld)).
Proof.
  rewrite main_session. unfold session_after_attempt, session_after_form, initialised.
  destruct (session wld) as [c [h|] [d|] [ws|] [m|]];
    destruct (save_clicked w), (fetch_clicked w && inputs_filled w);
    try destruct (get_all_action_types net _ _ _);
    cbn; repeat split; discriminate.
Qed.

(** ** What the operator is told *)

Lemma main_shows_fetch_event net fr (w : widgets) (wld : world) (event : ui_event) :
  (forall wld1, exists ss1,
     when (fetch_clicked w)
       (fetch_actions net (email_input w) (password_input w)
          (workspace_input w) (model_input w)) wld1
     = (ok tt, {| session := ss1; shown := shown wld1 ++ [event] |})) ->
  In event (shown (snd (main net fr w wld))).
Proof.
  intros Hstep. destruct (main_steps_uniform fr w wld) as [ev1 Hsteps]. rewrite Hsteps.
  match goal with
  | |- context [fetch_and_display net fr w ?w1] =>
      destruct (Hstep w1) as [ss1 Hw1];
      destruct (fetch_and_display_after net fr w w1 _ Hw1) as [ev3 ->]
  end.
  cbn [shown]. apply in_or_app. left. apply in_or_app. right. now left.
Qed.

(** Pressing Fetch Actions with an input left empty shows one of two
    messages, the one about the credentials whenever the email or the
    password is empty (also when the identifiers are empty as well), the one
    about the identifiers otherwise. *)
Theorem input_errors_reported net fr (w : widgets) (wld : world) :
  fetch_clicked w = true ->
  inputs_filled w = false ->
  In (UiError (if str_truthy (email_input w) && str_truthy (password_input w)
               then "Please enter Workspace ID and Model ID."
               else "Please enter and save your credentials first."))
     (shown (snd (main net fr w wld))).
Proof.
  intros Hclick Hin. unfold inputs_filled in Hin.
  apply main_shows_fetch_event. intros wld1. rewrite Hclick. cbn [when].
  destruct (str_truthy (email_input w) && str_truthy (password_input w)) eqn:Hc.
  - rewrite (fetch_actions_no_ids net _ _ _ _ wld1 Hc); [eexists; reflexivity|].
    destruct (str_truthy (workspace_input w)), (str_truthy (model_input w));
      cbn in *; try reflexivity; discriminate.
  - rewrite (fetch_actions_no_credentials net _ _ _ _ wld1 Hc). eexists. reflexivity.
Qed.

Lemma input_errors_reported_witness :
  In (UiError "Please enter and save your credentials first.")
     (shown (snd (main sample_net (fun rows => rows) empty_run fresh_world)))
  /\ In (UiError "Please enter Workspace ID and Model ID.")
        (shown (snd (main sample_net (fun rows => rows) no_ids_run fresh_world))).
Proof.
  split.
  - exact (input_errors_reported sample_net (fun rows => rows) empty_run fresh_world
             eq_refl eq_refl).
  - exact (input_errors_reported sample_net (fun rows => rows) no_ids_run fresh_world
             eq_refl eq_refl).
Defined.

Lemma none_truthy_all_empty (d : action_collection) :
  negb (existsb (fun kv => list_truthy (snd kv)) d) = true
  <-> Forall (fun kv => snd kv = []) d.
Proof.
  induction d as [|[c items] rest IH]; cbn [existsb snd].
  - split; [constructor | reflexivity].
  - rewrite negb_orb, andb_true_iff, IH. split.
    + intros [Hi Hr]. constructor; [|exact Hr].
      destruct items; [reflexivity | discriminate].
    + intros H. inversion H as [|kv l Hi Hr]; subst. cbn [snd] in Hi. subst items.
      split; [reflexivity | exact Hr].
Qed.

(** After a successful fetch the script tells "no actions" from "loaded":
    the warning is shown exactly when every one of the four categories came
    back empty, the success message as soon as one category holds an
    item. *)
Theorem empty_collection_warned net fr (w : widgets) (wld : world) (d : action_collection) :
  fetch_clicked w = true ->
  inputs_filled w = true ->
  get_all_action_types net (get_basic_auth_header (email_input w) (password_input w))
    (workspace_input w) (model_input w) = ok d ->
  (Forall (fun kv => snd kv = []) d ->
     In (UiWarning "No actions found in the model.") (shown (snd (main net fr w wld))))
  /\ (~ Forall (fun kv => snd kv = []) d ->
     In (UiSuccess "✅ Actions loaded successfully!") (shown (snd (main net fr w wld)))).
Proof.
  intros Hclick Hin Hall.
  destruct (inputs_filled_true w Hin) as (He & Hp & Hw & Hm).
  assert (Hstep : forall wld1, exists ss1,
            when (fetch_clicked w)
              (fetch_actions net (email_input w) (password_input w)
                 (workspace_input w) (model_input w)) wld1
            = (ok tt,
               {| session := ss1;
                  shown := shown wld1 ++
                    [if negb (existsb (fun kv => list_truthy (snd kv)) d)
                     then UiWarning "No actions found in the model."
                     else UiSuccess "✅ Actions loaded successfully!"] |})).
  { intros wld1. rewrite Hclick. cbn [when]. unfold fetch_actions.
    rewrite He, Hp, Hw, Hm. cbn [negb orb].
    unfold try_except, bind, modify, lift. cbn [ok session shown].
    rewrite Hall. cbn [ok session shown].
    destruct (negb (existsb _ d)); cbn [emit ok session shown]; eexists; reflexivity. }
  pose proof (main_shows_fetch_event net fr w wld _ Hstep) as Hshown.
  split; intros Hd.
  - apply none_truthy_all_empty in Hd. now rewrite Hd in Hshown.
  - destruct (negb (existsb (fun kv => list_truthy (snd kv)) d)) eqn:E;
      [|exact Hshown].
    apply none_truthy_all_empty in E. contradiction.
Qed.

Lemma empty_collection_warned_witness :
  In (UiWarning "No actions found in the model.")
     (shown (snd (main (net_always JNull) (fun rows => rows) fetch_run fresh_world)))
  /\ In (UiSuccess "✅ Actions loaded successfully!")
        (shown (snd (main sample_net (fun rows => rows) fetch_run fresh_world))).
Proof.
  split.
  - apply (proj1 (empty_collection_warned (net_always JNull) (fun rows => rows)
                    fetch_run fresh_world _ eq_refl eq_refl eq_refl)).
    repeat constructor.
  - apply (proj2 (empty_collection_warned sample_net (fun rows => rows)
                    fetch_run fresh_world _ eq_refl eq_refl eq_refl)).
    intros H. inversion H as [|kv l Hi _]. discriminate Hi.
Defined.

(** ** Exceptions that leave [main] *)

Lemma mapM_cells_raises (items : list json) (e : exn) :
  mapM name_id_cells items = raise e -> e = AttributeError.
Proof.
  induction items as [|item rest IH]; [discriminate|].
  cbn [mapM]. destruct item; cbn [name_id_cells rbind raise ok];
    try (intros H; injection H as <-; reflexivity).
  destruct (mapM name_id_cells rest) as [e'|rows]; cbn [rbind ok].
  - intros H. apply IH. exact H.
  - discriminate.
Qed.

Lemma mapM_cells_breaks (items : list json) (item : json) :
  In item items -> is_dict item = false ->
  exists e, mapM name_id_cells items = raise e.
Proof.
  induction items as [|x rest IH]; [contradiction|].
  intros [-> | Hin] Hnd.
  - destruct item; try discriminate; eexists; reflexivity.
  - destruct (IH Hin Hnd) as [e He]. cbn [mapM].
    destruct x; cbn [name_id_cells rbind raise ok]; try (eexists; reflexivity).
    rewrite He. eexists. reflexivity.
Qed.

Lemma display_categories_raises fr (data : action_collection) :
  forall combined_data wld e,
    fst (display_categories fr data combined_data wld) = raise e -> e = AttributeError.
Proof.
  induction data as [|[category items] rest IH]; intros acc wld e.
  - discriminate.
  - cbn [display_categories]. unfold bind at 1. cbn [emit ok].
    unfold bind at 1. destruct (list_truthy items).
    + unfold bind at 1. unfold lift at 1.
      destruct (mapM name_id_cells items) as [e'|rows] eqn:Hm.
      * cbn [fst]. intros H. injection H as <-. now apply (mapM_cells_raises items).
      * unfold bind at 1. cbn [emit ok ret]. apply IH.
    + unfold bind at 1. cbn [emit ok ret]. apply IH.
Qed.

Lemma display_categories_breaks fr (data : action_collection)
    (category : string) (items : list json) (item : json) :
  In (category, items) data -> In item items -> is_dict item = false ->
  forall combined_data wld,
    fst (display_categories fr data combined_data wld) = raise AttributeError.
Proof.
  intros Hin Hitem Hnd.
  assert (Hex : forall acc wld,
             exists e, fst (display_categories fr data acc wld) = raise e).
  { induction data as [|[c its] rest IH]; [contradiction|]. intros acc wld.
    cbn [display_categories]. unfold bind at 1. cbn [emit ok]. unfold bind at 1.
    destruct Hin as [Heq | Hin].
    - injection Heq as -> ->.
      destruct items as [|x xs]; [contradiction|]. cbn [list_truthy is_nil negb].
      unfold bind at 1. unfold lift at 1.
      destruct (mapM_cells_breaks (x :: xs) item Hitem Hnd) as [e ->].
      eexists. reflexivity.
    - destruct (list_truthy its).
      + unfold bind at 1. unfold lift at 1.
        destruct (mapM name_id_cells its) as [e'|rows].
        * eexists. reflexivity.
        * unfold bind at 1. cbn [emit ok ret]. apply (IH Hin).
      + unfold bind at 1. cbn [emit ok ret]. apply (IH Hin). }
  intros acc wld. destruct (Hex acc wld) as [e He].
  rewrite He. f_equal. apply (display_categories_raises fr data acc wld e He).
Qed.


Lemma display_actions_breaks fr (wld : world) (data : action_collection)
    (category : string) (items : list json) (item : json) :
  ss_action_data (session wld) = Some (Some data) ->
  In (category, items) data -> In item items -> is_dict item = false ->
  fst (display_actions fr wld) = raise AttributeError.
Proof.
  intros Hdata Hin Hitem Hnd.
  unfold display_actions, read_attr. unfold bind at 1. unfold bind at 1.
  cbn [get_session ok]. rewrite Hdata. cbn [ret ok].
  destruct data as [|kv rest]; [contradiction|]. cbn [list_truthy is_nil negb].
  unfold bind at 1. cbn [emit ok]. unfold bind at 1.
  match goal with
  | |- context [display_categories fr ?d ?a ?w] =>
      pose proof (display_categories_breaks fr d category items item Hin Hitem Hnd a w)
        as Hb;
      destruct (display_categories fr d a w) as [[e'|combined] wld']
  end; cbn [fst] in *; [exact Hb | discriminate].
Qed.

Lemma main_result net fr (w : widgets) (wld : world) :
  exists wld1,
    fst (main net fr w wld)
    = match fst (display_actions fr wld1) with
      | inl e => inl e
      | inr _ => ok tt
      end
    /\ session wld1 = session (snd (main net fr w wld)).
Proof.
  destruct (main_steps_uniform fr w wld) as [ev1 Hsteps]. rewrite Hsteps.
  match goal with
  | |- context [fetch_and_display net fr w ?w1] =>
      destruct (fetch_step_run net w w1) as [ev2 Hstep]
  end.
  match type of Hstep with
  | _ = (_, ?w2) => exists w2
  end.
  split.
  - unfold fetch_and_display. unfold bind at 1. rewrite Hstep. unfold bind at 1.
    match goal with
    | |- context [display_actions fr ?w2] =>
        destruct (display_actions fr w2) as [[e|combined] w3]
    end; reflexivity.
  - match goal with
    | |- context [fetch_and_display net fr w ?w1] =>
        destruct (fetch_and_display_after net fr w w1 _ Hstep) as [ev3 ->]
    end.
    reflexivity.
Qed.



(** A collection with an item that is not a mapping (a list of names, say)
    passes the fetch untouched and is stored, but the display loop cannot
    read it: any run that ends with such a collection in the session ends
    with [AttributeError], so the page fails on every rerun until another
    fetch replaces the collection. *)
Theorem non_record_item_breaks_display net fr (w : widgets) (wld : world)
    (d : action_collection) (category : string) (items : list json) (item : json) :
  ss_action_data (session (snd (main net fr w wld))) = Some (Some d) ->
  In (category, items) d -> In item items -> is_dict item = false ->
  fst (main net fr w wld) = raise AttributeError.
Proof.
  intros Hdata Hin Hitem Hnd.
  destruct (main_result net fr w wld) as (wld1 & -> & Hs).
  rewrite <- Hs in Hdata.
  now rewrite (display_actions_breaks fr wld1 d category items item Hdata Hin Hitem Hnd).
Qed.

Lemma non_record_item_breaks_display_witness :
  fst (main strings_net (fun rows => rows) fetch_run fresh_world) = raise AttributeError
  /\ fst (main failing_net (fun rows => rows) no_ids_run
            (snd (main strings_net (fun rows => rows) fetch_run fresh_world)))
     = raise AttributeError.
Proof.
  split.
  - apply (non_record_item_breaks_display strings_net (fun rows => rows) fetch_run
             fresh_world
             [("Processes", [JStr "process-1"]); ("Imports", [JStr "process-1"]);
              ("Exports", [JStr "process-1"]); ("Other Actions", [JStr "process-1"])]%string
             "Processes" [JStr "process-1"] (JStr "process-1")).
    + reflexivity.
    + now left.
    + now left.
    + reflexivity.
  - apply (non_record_item_breaks_display failing_net (fun rows => rows) no_ids_run _
             [("Processes", [JStr "process-1"]); ("Imports", [JStr "process-1"]);
              ("Exports", [JStr "process-1"]); ("Other Actions", [JStr "process-1"])]%string
             "Processes" [JStr "process-1"] (JStr "process-1")).
    + reflexivity.
    + now left.
    + now left.
    + reflexivity.
Defined.

(** ** What the display loop shows *)

Lemma display_categories_shows fr (data : action_collection) :
  keeps_text fr ->
  text_collection data ->
  forall combined_data wld,
  exists events,
    display_categories fr data combined_data wld
    = (ok (combined_data ++ flatten data),
       {| session := session wld; shown := shown wld ++ events |})
    /\ filter is_download events = []
    /\ (forall category items,
          In (category, items) data ->
          In (UiSubheader ("📋 " ++ category)%string) events
          /\ (items = [] -> In (UiNoItems category) events)
          /\ (items <> [] -> In (UiTable (map cells_of items)) events)).
Proof.
  intros Hfr Hdata.
  induction Hdata as [|[category items] rest Hitems _ IH]; intros acc wld.
  - exists []. unfold flatten. cbn. rewrite !app_nil_r.
    split; [now destruct wld | split; [reflexivity | contradiction]].
  - cbn [snd] in Hitems. destruct (mapM_cells items Hitems) as [Hm Ht].
    cbn [display_categories]. unfold bind at 1. cbn [emit ok].
    destruct items as [|item items'].
    + cbn [list_truthy is_nil negb]. unfold bind at 1. unfold bind at 1.
      cbn [emit ok ret].
      match goal with
      | |- context [display_categories fr rest acc ?w] =>
          destruct (IH acc w) as (events & -> & Hnodl & Hshown)
      end.
      cbn [session shown].
      exists (UiSubheader ("📋 " ++ category)%string :: UiNoItems category :: events).
      split; [|split].
      * unfold flatten. cbn [map List.concat fst snd app].
        rewrite <- !app_assoc. reflexivity.
      * cbn. exact Hnodl.
      * intros c its [Heq | Hin].
        -- injection Heq as <- <-. cbn. split; [tauto|]. split; [tauto | congruence].
        -- destruct (Hshown c its Hin) as (H1 & H2 & H3).
           split; [right; right; exact H1|].
           split; intros H; right; right; auto.
    + cbn [list_truthy is_nil negb]. unfold bind at 1. unfold bind at 1.
      unfold lift at 1. rewrite Hm. cbn [ok]. unfold bind at 1. cbn [emit ok ret].
      rewrite (Hfr _ Ht), tag_cells.
      match goal with
      | |- context [display_categories fr rest ?a ?w] =>
          destruct (IH a w) as (events & -> & Hnodl & Hshown)
      end.
      cbn [session shown].
      exists (UiSubheader ("📋 " ++ category)%string
                :: UiTable (map cells_of (item :: items')) :: events).
      split; [|split].
      * unfold flatten. cbn [map List.concat fst snd].
        rewrite <- !app_assoc. reflexivity.
      * cbn. exact Hnodl.
      * intros c its [Heq | Hin].
        -- injection Heq as <- <-. cbn [In]. split; [tauto|].
           split; [discriminate | tauto].
        -- destruct (Hshown c its Hin) as (H1 & H2 & H3).
           split; [right; right; exact H1|].
           split; intros H; right; right; auto.
Qed.

Lemma display_actions_shows fr (wld : world) (data : action_collection) :
  keeps_text fr ->
  ss_action_data (session wld) = Some (Some data) ->
  text_collection data ->
  exists events,
    display_actions fr wld
    = (ok (flatten data), {| session := session wld; shown := shown wld ++ events |})
    /\ filter is_download events
       = (if is_nil (flatten data) then [] else [UiDownload (flatten data)])
    /\ (forall category items,
          In (category, items) data ->
          In (UiSubheader ("📋 " ++ category)%string) events
          /\ (items = [] -> In (UiNoItems category) events)
          /\ (items <> [] -> In (UiTable (map cells_of items)) events)).
Proof.
  intros Hfr Hdata Htext.
  unfold display_actions, read_attr. unfold bind at 1. unfold bind at 1.
  cbn [get_session ok]. rewrite Hdata. cbn [ret ok].
  destruct data as [|kv rest] eqn:Edata.
  - exists []. cbn. rewrite app_nil_r.
    split; [now destruct wld | split; [reflexivity | contradiction]].
  - rewrite <- Edata in *. replace (list_truthy data) with true by now subst data.
    unfold bind at 1. cbn [emit ok]. unfold bind at 1.
    match goal with
    | |- context [display_categories fr data [] ?w] =>
        destruct (display_categories_shows fr data Hfr Htext [] w)
          as (events & -> & Hnodl & Hshown)
    end.
    cbn [session shown app]. unfold bind at 1.
    destruct (flatten data) as [|row rows] eqn:Eflat.
    + cbn [list_truthy is_nil negb when ret ok session shown].
      exists (UiDivider :: events). split; [|split].
      * rewrite <- !app_assoc. reflexivity.
      * cbn. exact Hnodl.
      * intros c its Hin. destruct (Hshown c its Hin) as (H1 & H2 & H3).
        split; [right; exact H1|]. split; intros H; right; auto.
    + cbn [list_truthy is_nil negb when emit ret ok session shown].
      exists (UiDivider :: events ++ [UiDownload (row :: rows)]). split; [|split].
      * rewrite <- !app_assoc. reflexivity.
      * cbn [filter is_download]. rewrite filter_app, Hnodl. reflexivity.
      * intros c its Hin. destruct (Hshown c its Hin) as (H1 & H2 & H3).
        split; [right; apply in_or_app; left; exact H1|].
        split; intros H; right; apply in_or_app; left; auto.
Qed.



(** Every category of a stored collection of text records is shown under
    its own heading: as a table of the name and id of its items, in their
    order, or, when it has no item, as the no-items notice. *)
Theorem every_category_shown fr (wld : world) (data : action_collection)
    (category : string) (items : list json) :
  keeps_text fr ->
  ss_action_data (session wld) = Some (Some data) ->
  text_collection data ->
  In (category, items) data ->
  let after := shown (snd (display_actions fr wld)) in
  In (UiSubheader ("📋 " ++ category)%string) after
  /\ (items = [] -> In (UiNoItems category) after)
  /\ (items <> [] -> In (UiTable (map cells_of items)) after).
Proof.
  intros Hfr Hdata Htext Hin. cbv zeta.
  destruct (display_actions_shows fr wld data Hfr Hdata Htext) as (events & -> & _ & Hs).
  destruct (Hs category items Hin) as (H1 & H2 & H3). cbn [snd shown].
  split; [apply in_or_app; right; exact H1|].
  split; intros H; apply in_or_app; right; auto.
Qed.

Lemma every_category_shown_witness :
  In (UiNoItems "Imports") (shown (snd (display_actions (fun rows => rows) sample_world)))
  /\ In (UiTable [(JStr "E1", JStr "e1"); (JStr "", JStr "e2")])
        (shown (snd (display_actions (fun rows => rows) sample_world))).
Proof.
  split.
  - apply (every_category_shown (fun rows => rows) sample_world sample_collection
             "Imports" [] (fun rows _ => eq_refl) eq_refl);
      [repeat constructor | cbn; tauto | reflexivity].
  - apply (every_category_shown (fun rows => rows) sample_world sample_collection
             "Exports" [sample_record "E1" "e1"; JDict [("id"%string, JStr "e2")]]
             (fun rows _ => eq_refl) eq_refl);
      [repeat constructor | cbn; tauto | discriminate].
Defined.

(** ** A whole run *)




(** ** Records *)

(** The default of [i.get] applies to a missing key only.  A record's Name
    and ID cells are the values stored under its name and id keys, whatever
    they are (a null stays a null and is not replaced by the empty string),
    and the empty string exactly for a key the record does not have; a raw
    item that is not a mapping has no cells at all. *)
Theorem cells_default_only_when_missing (entries : list (string * json)) :
  (exists name id,
     name_id_cells (JDict entries) = ok (name, id)
     /\ (forall before after v,
           entries = before ++ ("name"%string, v) :: after ->
           (forall u, ~ In ("name"%string, u) before) -> name = v)
     /\ ((forall v, ~ In ("name"%string, v) entries) -> name = JStr "")
     /\ (forall before after v,
           entries = before ++ ("id"%string, v) :: after ->
           (forall u, ~ In ("id"%string, u) before) -> id = v)
     /\ ((forall v, ~ In ("id"%string, v) entries) -> id = JStr ""))
  /\ (forall item, is_dict item = false -> name_id_cells item = raise AttributeError).
Proof.
  split.
  - exists (dict_get entries "name" (JStr "")), (dict_get entries "id" (JStr "")).
    split; [reflexivity|]. rewrite !dict_get_field. repeat split.
    + intros before after v -> Hb. now apply field_present.
    + apply field_missing.
    + intros before after v -> Hb. now apply field_present.
    + apply field_missing.
  - intros item Hnd. destruct item; try reflexivity; discriminate.
Qed.

(** ** Reruns and the credential form *)

(** A rerun in which no button is pressed leaves an initialised session
    exactly as it was, whatever is typed into the inputs and however much
    time has passed. *)
Theorem idle_rerun_keeps_session net fr (w : widgets) (wld : world) :
  idle_run w ->
  initialised (session wld) ->
  session (snd (main net fr w wld)) = session wld.
Proof.
  intros [Hsave Hfetch] (Hh & Hd & Hw & Hm).
  rewrite main_session, Hfetch. cbn [andb].
  unfold session_after_form. rewrite Hsave.
  destruct (session wld) as [c [h|] [d|] [ws|] [m|]]; cbn in *;
    try reflexivity; contradiction.
Qed.

Lemma idle_rerun_keeps_session_witness :
  session (snd (main failing_net (fun rows => rows) rerun sample_world))
  = session sample_world.
Proof.
  apply (idle_rerun_keeps_session failing_net (fun rows => rows) rerun sample_world).
  - split; reflexivity.
  - repeat split; discriminate.
Defined.



(** ** More on the auth encoder *)

Lemma b64encode_length (bs : list byte) :
  List.length (b64encode bs) = (4 * ((List.length bs + 2) / 3))%nat.
Proof.
  induction bs as [|a|a b|a b c rest IH] using list_ind3; try reflexivity.
  cbn [b64encode List.length]. rewrite IH.
  replace (S (S (S (List.length rest))) + 2)%nat with (List.length rest + 2 + 1 * 3)%nat by lia.
  rewrite Nat.div_add by discriminate. lia.
Qed.

Lemma colon_split_unique (i i' s s' : string) :
  colon_free i = true -> colon_free i' = true ->
  (i ++ ":" ++ s)%string = (i' ++ ":" ++ s')%string ->
  i = i' /\ s = s'.
Proof.
  revert i'. induction i as [|c r IH]; intros [|c' r'] Hi Hi' H; cbn in *.
  - injection H as ->. auto.
  - injection H as <- _. cbn in Hi'. discriminate.
  - injection H as -> _. cbn in Hi. discriminate.
  - injection H as -> H.
    apply andb_true_iff in Hi. apply andb_true_iff in Hi'.
    destruct (IH r' (proj2 Hi) (proj2 Hi') H) as [-> ->]. auto.
Qed.

(** For identities without the separator the token determines both the
    identity and the secret: two such pairs with the same token are the same
    pair. *)
Theorem token_determines_pair (identity secret identity' secret' : string) :
  colon_free identity = true -> colon_free identity' = true ->
  get_basic_auth_header identity secret = get_basic_auth_header identity' secret' ->
  identity = identity' /\ secret = secret'.
Proof.
  intros Hi Hi' H. unfold get_basic_auth_header in H.
  apply append_inj_l, decode_utf8_inj, b64encode_inj, encode_utf8_inj in H.
  now apply colon_split_unique.
Qed.

Lemma token_determines_pair_witness :
  "ann@example.com"%string = "ann@example.com"%string /\ "p:w"%string = "p:w"%string.
Proof.
  apply (token_determines_pair "ann@example.com" "p:w" "ann@example.com" "p:w");
    reflexivity.
Defined.

Lemma append_assoc (a b c : string) :
  (a ++ (b ++ c))%string = ((a ++ b) ++ c)%string.
Proof. induction a as [|ch r IH]; cbn; [reflexivity | now rewrite IH]. Qed.

(** Nothing keeps the separator out of the identity, and the token does not
    tell where the identity ends: moving a part of the identity after a
    separator over to the secret gives the same token. *)
Theorem separator_in_identity_is_ambiguous (x y z : string) :
  get_basic_auth_header (x ++ ":" ++ y) z = get_basic_auth_header x (y ++ ":" ++ z).
Proof.
  unfold get_basic_auth_header.
  now rewrite <- !append_assoc.
Qed.

Lemma encode_utf8_length (s : string) : List.length (encode_utf8 s) = String.length s.
Proof.
  unfold encode_utf8, list_byte_of_string. rewrite length_map.
  induction s as [|c r IH]; cbn; [reflexivity | now rewrite IH].
Qed.

Lemma decode_utf8_length (bs : list byte) : String.length (decode_utf8 bs) = List.length bs.
Proof.
  unfold decode_utf8, string_of_list_byte.
  induction bs as [|b r IH]; cbn; [reflexivity | now rewrite IH].
Qed.

(** The token is as long as base64 makes it: the six characters of the
    scheme label and four characters for every three bytes, rounded up, of
    the identity, the separator and the secret. *)
Theorem token_length (identity secret : string) :
  String.length (get_basic_auth_header identity secret)
  = (6 + 4 * ((String.length identity + String.length secret + 3) / 3))%nat.
Proof.
  unfold get_basic_auth_header.
  rewrite length_append, decode_utf8_length, b64encode_length, encode_utf8_length.
  rewrite !length_append. cbn [String.length].
  replace (String.length identity + (1 + String.length secret) + 2)%nat
    with (String.length identity + String.length secret + 3)%nat by lia.
  reflexivity.
Qed.




